(** * KITTIDataset: index-to-sample mapping of the KITTI odometry accessor

    A shallow embedding of [src/KITTIDataset.py].  Python integers are [Z],
    Python lists are [list] with Python's indexing rules written out
    (negative indices wrap once, anything else raises [IndexError]),
    exceptions are an explicit error type threaded through a small error
    monad, and floating point, numpy, torch, OpenCV and spatialmath are an
    interface ([Externals]) the accessor is parametric in.  Transfers to the
    device ([.cuda()]) keep the values and are left out. *)

From Stdlib Require Import ZArith List Ascii String Bool Lia.
From stdpp Require Import base list.

Import ListNotations.
Local Open Scope Z_scope.

(** ** Exceptions and the error monad *)

(** The payload of the [ValueError]s the module can raise: the six
    [raise ValueError(...)] of [__init__], the one [min]/[max] raise on an
    empty list, and the one [np.reshape] raises on a size mismatch. *)
Inductive value_error : Type :=
| SequencesOutOfRange
| NotEnoughStartFrames
| NotEnoughEndFrames
| InvalidStartFrame (seq : Z)
| InvalidEndFrame (seq : Z)
| NegativeLength
| EmptyArgument
| CannotReshape.

Inductive exn : Type :=
| ValueError (v : value_error)
| TypeError
| IndexError
| OutOfRangeError
| LinAlgError
| FileError.

Inductive result (A : Type) : Type :=
| Ok (a : A)
| Raise (e : exn).

Arguments Ok {A} a.
Arguments Raise {A} e.

Definition bind {A B : Type} (c : result A) (k : A -> result B) : result B :=
  match c with
  | Ok a => k a
  | Raise e => Raise e
  end.

Notation "x <- c ;; k" := (bind c (fun x => k))
  (at level 100, c at next level, right associativity).

Definition is_ok {A : Type} (c : result A) : bool :=
  match c with Ok _ => true | Raise _ => false end.

(** A configuration error is a [ValueError]. *)
Definition is_value_error {A : Type} (c : result A) : bool :=
  match c with Raise (ValueError _) => true | _ => false end.

Definition is_type_error {A : Type} (c : result A) : bool :=
  match c with Raise TypeError => true | _ => false end.

(** ** Python list primitives *)

Definition len {A : Type} (l : list A) : Z := Z.of_nat (length l).

(** [l[i]]: a negative index counts from the end, an index outside
    [-len, len) raises [IndexError]. *)
Definition py_index {A : Type} (l : list A) (i : Z) : result nat :=
  if (0 <=? i) && (i <? len l) then Ok (Z.to_nat i)
  else if (- len l <=? i) && (i <? 0) then Ok (Z.to_nat (len l + i))
  else Raise IndexError.

Definition py_get {A : Type} (l : list A) (i : Z) : result A :=
  n <- py_index l i ;;
  match l !! n with
  | Some a => Ok a
  | None => Raise IndexError
  end.

(** [l[i] = v] *)
Definition py_set {A : Type} (l : list A) (i : Z) (v : A) : result (list A) :=
  n <- py_index l i ;;
  Ok (<[n := v]> l).

(** [p[i]] for a constructor parameter that may still be [None]:
    subscripting [None] raises [TypeError]. *)
Definition py_get_opt {A : Type} (p : option (list A)) (i : Z) : result A :=
  match p with
  | Some l => py_get l i
  | None => Raise TypeError
  end.

(** [min(l)] and [max(l)]: [ValueError] on an empty list. *)
Definition py_min (l : list Z) : result Z :=
  match l with
  | [] => Raise (ValueError EmptyArgument)
  | x :: l' => Ok (fold_left Z.min l' x)
  end.

Definition py_max (l : list Z) : result Z :=
  match l with
  | [] => Raise (ValueError EmptyArgument)
  | x :: l' => Ok (fold_left Z.max l' x)
  end.

(** [range(n)] *)
Definition py_range (n : nat) : list Z := map Z.of_nat (seq 0 n).

(** [for x in xs: st = body(x, st)], stopping at the first raise. *)
Fixpoint for_each {S : Type} (xs : list Z) (body : Z -> S -> result S) (st : S)
  : result S :=
  match xs with
  | [] => Ok st
  | x :: xs' => st' <- body x st ;; for_each xs' body st'
  end.

(** [os.path.join(a, b)] of [posixpath]: an absolute [b] replaces [a], an
    empty [a] or one that ends in a slash takes [b] as it is, and any
    other [a] takes a slash and [b]. *)
Definition starts_with_slash (s : string) : bool :=
  match s with
  | String c _ => Ascii.eqb c "/"%char
  | EmptyString => false
  end.

Fixpoint ends_with_slash (s : string) : bool :=
  match s with
  | EmptyString => false
  | String c EmptyString => Ascii.eqb c "/"%char
  | String _ s' => ends_with_slash s'
  end.

Definition path_join (a b : string) : string :=
  if starts_with_slash b then b
  else if String.eqb a "" || ends_with_slash a then (a ++ b)%string
  else (a ++ "/" ++ b)%string.

(** ** [helpers.first_ge] *)

(** Modelled from the spec: [helpers.first_ge], whose module is not among the
    sources.  The spec describes it as the linear "first index
    greater-or-equal" scan over the cumulative lengths ("first index >=
    target"), and a lookup outside the table as an out-of-range error. *)
Fixpoint first_ge_from (a : list Z) (x : Z) (i : Z) : result Z :=
  match a with
  | [] => Raise OutOfRangeError
  | v :: a' => if x <=? v then Ok i else first_ge_from a' x (i + 1)
  end.

Definition first_ge (a : list Z) (x : Z) : result Z := first_ge_from a x 0.

(** ** The dataset object *)

(** The attributes [__init__] sets.  [channelwiseMean] and
    [channelwiseStdDev] are read by [preprocess_img] only, which belongs to
    the image collaborator. *)
Record KITTIDataset : Type := {
  baseDir : string;
  imgDir : string;
  poseDir : string;
  KITTIMaxFrames : list Z;
  width : Z;
  height : Z;
  channels : Z;
  sequences : list Z;
  startFrames : list Z;
  endFrames : list Z;
  parameterization : string;
  length_ : Z;
  cumulativeLengths : list Z
}.

(** Max frames in each KITTI sequence. *)
Definition kitti_max_frames : list Z :=
  [4540; 1100; 4660; 800; 270; 2760; 1100; 1100; 4070; 1590; 1200].

(** The state the validation loop of [__init__] updates:
    [self.length] and [self.cumulativeLengths]. *)
Definition loop_state : Type := (Z * list Z)%type.

(** One iteration of [for i in range(len(self.sequences))].  [self_seqs],
    [self_starts] and [self_ends] are the defaulted attributes, [raw_starts]
    and [raw_ends] the constructor parameters the accumulation reads. *)
Definition init_body (self_seqs self_starts self_ends : list Z)
    (raw_starts raw_ends : option (list Z)) (i : Z) (st : loop_state)
  : result loop_state :=
  let '(length, cumulative) := st in
  seq <- py_get self_seqs i ;;
  s <- py_get self_starts i ;;
  bad_start <- (if s <? 0 then Ok true
                else m <- py_get kitti_max_frames seq ;; Ok (m <? s)) ;;
  if bad_start : bool then Raise (ValueError (InvalidStartFrame seq)) else
  e <- py_get self_ends i ;;
  bad_end <- (if (e <? 0) || (e <=? s) then Ok true
              else m <- py_get kitti_max_frames seq ;; Ok (m <? e)) ;;
  if bad_end : bool then Raise (ValueError (InvalidEndFrame seq)) else
  re <- py_get_opt raw_ends i ;;
  rs <- py_get_opt raw_starts i ;;
  let length := length + (re - rs) in
  cumulative <- py_set cumulative i length ;;
  Ok (length, cumulative).

(** [min(self.sequences) < 0 or max(self.sequences) > 10] *)
Definition range_check (seqs : list Z) : result bool :=
  lo <- py_min seqs ;;
  if lo <? 0 then Ok true else hi <- py_max seqs ;; Ok (10 <? hi).

(** [KITTIDataset.__init__]; the caller gives every keyword parameter,
    [None] standing for an omitted list. *)
Definition init (kitti_base_dir : string)
    (sequences_arg startFrames_arg endFrames_arg : option (list Z))
    (parameterization_arg : string) (width_arg height_arg : Z)
  : result KITTIDataset :=
  let self_seqs := default [1] sequences_arg in
  let self_starts := default [0] startFrames_arg in
  let self_ends := default [1100] endFrames_arg in
  let cumulative0 := replicate (length self_seqs) 0 in
  out_of_range <- range_check self_seqs ;;
  if out_of_range : bool then Raise (ValueError SequencesOutOfRange) else
  if negb (len self_seqs =? len self_starts)
  then Raise (ValueError NotEnoughStartFrames) else
  if negb (len self_seqs =? len self_ends)
  then Raise (ValueError NotEnoughEndFrames) else
  st <- for_each (py_range (length self_seqs))
          (init_body self_seqs self_starts self_ends startFrames_arg endFrames_arg)
          (0, cumulative0) ;;
  let '(length, cumulative) := st in
  if length <? 0 then Raise (ValueError NegativeLength) else
  Ok {| baseDir := kitti_base_dir;
        imgDir := path_join kitti_base_dir "sequences";
        poseDir := path_join kitti_base_dir "poses";
        KITTIMaxFrames := kitti_max_frames;
        width := width_arg;
        height := height_arg;
        channels := 3;
        sequences := self_seqs;
        startFrames := self_starts;
        endFrames := self_ends;
        parameterization := parameterization_arg;
        length_ := length;
        cumulativeLengths := cumulative |}.

(** [KITTIDataset.__len__] *)
Definition py_len (self : KITTIDataset) : Z := length_ self.

(** ** The lookup step of [__getitem__] *)

(** What the first part of [__getitem__] computes before any file is read;
    the source marks the point with [# return (seqIdx, frame1, frame2)]. *)
Record FrameLookup : Type := {
  seqKey : Z;
  seqIdx : Z;
  frame1 : Z;
  frame2 : Z;
  endOfSequence : bool
}.

Definition lookup (self : KITTIDataset) (idx : Z) : result FrameLookup :=
  seqKey <- first_ge (cumulativeLengths self) idx ;;
  seqIdx <- py_get (sequences self) seqKey ;;
  offset <- (if seqKey =? 0 then Ok idx
             else c <- py_get (cumulativeLengths self) (seqKey - 1) ;;
                  Ok (idx - c)) ;;
  s <- py_get (startFrames self) seqKey ;;
  let frame1 := s + offset in
  let frame2 := frame1 + 1 in
  e <- py_get (endFrames self) seqKey ;;
  let endOfSequence := frame2 =? e in
  Ok {| seqKey := seqKey; seqIdx := seqIdx; frame1 := frame1;
        frame2 := frame2; endOfSequence := endOfSequence |}.

(** ** The collaborators of [__getitem__] *)

Definition Vec3 (S : Type) : Type := (S * S * S)%type.
Definition Vec4 (S : Type) : Type := (S * S * S * S)%type.
Definition Mat3 (S : Type) : Type := (Vec3 S * Vec3 S * Vec3 S)%type.
Definition Mat34 (S : Type) : Type := (Vec4 S * Vec4 S * Vec4 S)%type.
Definition Mat4 (S : Type) : Type := (Vec4 S * Vec4 S * Vec4 S * Vec4 S)%type.

(** What [__getitem__] takes from numpy, torch, OpenCV and spatialmath, and
    from the files under [baseDir].  [Scalar] stands for the floating-point
    numbers, [Tensor] for the preprocessed image pair. *)
Class Externals : Type := {
  Scalar : Type;
  Tensor : Type;
  (* the literals [0.], [1.] and [10.] *)
  f_zero : Scalar;
  f_one : Scalar;
  f_ten : Scalar;
  (* elementwise [*] of torch *)
  f_mul : Scalar -> Scalar -> Scalar;
  (* [.astype(np.float32)], [.float()], [torch.FloatTensor] *)
  to_float32 : Scalar -> Scalar;
  (* the two [cv2.imread], [preprocess_img], [torch.cat] and the scaling by
      [1/255]: [imgDir], sequence, the two frames, channels, height, width *)
  load_input : string -> Z -> Z -> Z -> Z -> Z -> Z -> result Tensor;
  (* [np.loadtxt] of the pose file of a sequence under [poseDir] *)
  np_loadtxt : string -> Z -> result (list (list Scalar));
  (* [np.linalg.inv] raises [LinAlgError] on a singular matrix *)
  np_linalg_inv : Mat4 Scalar -> result (Mat4 Scalar);
  np_dot : Mat4 Scalar -> Mat4 Scalar -> Mat4 Scalar;
  tr2rpy : Mat3 Scalar -> Vec3 Scalar;
  r2q : Mat3 Scalar -> Vec4 Scalar;
  (* [tr2eul(R)] of spatialmath, called with its matrix alone *)
  tr2eul : Mat3 Scalar -> Vec3 Scalar
}.

Section Matrices.
Context {S : Type}.

(** [np.reshape(row, (3, 4))] *)
Definition reshape_3_4 (row : list S) : result (Mat34 S) :=
  match row with
  | [a0; a1; a2; a3; b0; b1; b2; b3; c0; c1; c2; c3] =>
      Ok ((a0, a1, a2, a3), (b0, b1, b2, b3), (c0, c1, c2, c3))
  | _ => Raise (ValueError CannotReshape)
  end.

(** [np.vstack([m, [row]])] *)
Definition vstack (m : Mat34 S) (row : Vec4 S) : Mat4 S :=
  let '(r0, r1, r2) := m in (r0, r1, r2, row).

Definition take3 (v : Vec4 S) : Vec3 S := let '(a, b, c, _) := v in (a, b, c).
Definition at3 (v : Vec4 S) : S := let '(_, _, _, d) := v in d.

(** [m[0:3, 0:3]] *)
Definition rot_block (m : Mat4 S) : Mat3 S :=
  let '(r0, r1, r2, _) := m in (take3 r0, take3 r1, take3 r2).

(** [m[0:3, 3]] *)
Definition trans_col (m : Mat4 S) : Vec3 S :=
  let '(r0, r1, r2, _) := m in (at3 r0, at3 r1, at3 r2).

Definition map3 (f : S -> S) (v : Vec3 S) : Vec3 S :=
  let '(a, b, c) := v in (f a, f b, f c).
Definition map4 (f : S -> S) (v : Vec4 S) : Vec4 S :=
  let '(a, b, c, d) := v in (f a, f b, f c, f d).

(** the flat contents of a [(1, 3)] and of a [(1, 4)] tensor *)
Definition flat3 (v : Vec3 S) : list S := let '(a, b, c) := v in [a; b; c].
Definition flat4 (v : Vec4 S) : list S :=
  let '(a, b, c, d) := v in [a; b; c; d].
End Matrices.

(** ** [__getitem__] *)

Section GetItem.
Context {E : Externals}.

(** The tuple [__getitem__] returns. *)
Record Sample : Type := {
  inputTensor : Tensor;
  rotation : list Scalar;
  translation : Vec3 Scalar;
  sample_seqIdx : Z;
  sample_frame1 : Z;
  sample_frame2 : Z;
  sample_endOfSequence : bool
}.

(** [np.vstack([np.reshape(poses[frame].astype(np.float32), (3, 4)),
    [[0., 0., 0., 1.]]])] *)
Definition load_pose (poses : list (list Scalar)) (frame : Z)
  : result (Mat4 Scalar) :=
  row <- py_get poses frame ;;
  m <- reshape_3_4 (map to_float32 row) ;;
  Ok (vstack m (f_zero, f_zero, f_zero, f_one)).

(** [pose2wrt1 = np.dot(np.linalg.inv(pose1), pose2)] *)
Definition relative (pose1 pose2 : Mat4 Scalar) : result (Mat4 Scalar) :=
  inv1 <- np_linalg_inv pose1 ;;
  Ok (np_dot inv1 pose2).

(** [R = pose2wrt1[0:3, 0:3]] and [t = pose2wrt1[0:3, 3]] as a float
    tensor: the relative pose the branches work on. *)
Definition relative_pose (pose1 pose2 : Mat4 Scalar)
  : result (Mat3 Scalar * Vec3 Scalar) :=
  pose2wrt1 <- relative pose1 pose2 ;;
  let R := rot_block pose2wrt1 in
  let t := map3 to_float32 (trans_col pose2wrt1) in
  Ok (R, t).

(** The keyword parameters of spatialmath's
    [tr2eul(T, unit, flip, check, tol)]. *)
Definition tr2eul_keywords : list string :=
  ["unit"; "flip"; "check"; "tol"]%string.

(** A call [tr2eul(R, k1=..., k2=...)] with the keywords [keywords]: Python
    raises [TypeError] for a keyword the function does not have, before
    the function runs. *)
Definition call_tr2eul (keywords : list string) (R : Mat3 Scalar)
  : result (Vec3 Scalar) :=
  if forallb (fun k => existsb (String.eqb k) tr2eul_keywords) keywords
  then Ok (tr2eul R)
  else Raise TypeError.

(** The four branches on [self.parameterization]; the result is the pair
    (rotation, translation) of the returned tuple, [None] when no branch
    is taken and the function falls off its end.  The euler branch calls
    [tr2eul(R, seq='xyz')]. *)
Definition encode (tag : string) (R : Mat3 Scalar) (t : Vec3 Scalar)
    (pose2 : Mat4 Scalar) : result (option (list Scalar * Vec3 Scalar)) :=
  if String.eqb tag "default" then
    let axisAngle := flat3 (map3 to_float32 (tr2rpy R)) in
    Ok (Some (axisAngle, t))
  else if String.eqb tag "quaternion" then
    let quaternion := flat4 (map4 to_float32 (r2q R)) in
    Ok (Some (quaternion, t))
  else if String.eqb tag "euler" then
    angles <- call_tr2eul ["seq"%string] R ;;
    let euler := flat3 (map3 (f_mul f_ten) (map3 to_float32 angles)) in
    Ok (Some (euler, t))
  else if String.eqb tag "se3" then
    let R := rot_block pose2 in
    let t := map3 to_float32 (trans_col pose2) in
    let quaternion := flat4 (map4 to_float32 (r2q R)) in
    Ok (Some (quaternion, t))
  else Ok None.

(** [KITTIDataset.__getitem__]; [Ok None] is Python's [None]. *)
Definition getitem (self : KITTIDataset) (idx : Z) : result (option Sample) :=
  lk <- lookup self idx ;;
  input <- load_input (imgDir self) (seqIdx lk) (frame1 lk) (frame2 lk)
             (channels self) (height self) (width self) ;;
  poses <- np_loadtxt (poseDir self) (seqIdx lk) ;;
  pose1 <- load_pose poses (frame1 lk) ;;
  pose2 <- load_pose poses (frame2 lk) ;;
  Rt <- relative_pose pose1 pose2 ;;
  code <- encode (parameterization self) (fst Rt) (snd Rt) pose2 ;;
  Ok (match code with
      | Some (rot, t) =>
          Some {| inputTensor := input; rotation := rot; translation := t;
                  sample_seqIdx := seqIdx lk; sample_frame1 := frame1 lk;
                  sample_frame2 := frame2 lk;
                  sample_endOfSequence := endOfSequence lk |}
      | None => None
      end).

(** The files and the inversion [__getitem__] needs at [idx] are there:
    the lookup returns [lk], the image pair loads as [input], the pose file
    has the rows of both frames, giving [pose1] and [pose2], and [pose1]
    inverts to [inv1]. *)
Definition reads (ds : KITTIDataset) (idx : Z) (lk : FrameLookup)
    (input : Tensor) (pose1 pose2 inv1 : Mat4 Scalar) : Prop :=
  lookup ds idx = Ok lk /\
  load_input (imgDir ds) (seqIdx lk) (frame1 lk) (frame2 lk)
    (channels ds) (height ds) (width ds) = Ok input /\
  (exists poses,
     np_loadtxt (poseDir ds) (seqIdx lk) = Ok poses /\
     load_pose poses (frame1 lk) = Ok pose1 /\
     load_pose poses (frame2 lk) = Ok pose2) /\
  np_linalg_inv pose1 = Ok inv1.

(** The tuple assembled around an encoded rotation and translation. *)
Definition sample_of (lk : FrameLookup) (input : Tensor)
    (code : list Scalar * Vec3 Scalar) : Sample :=
  {| inputTensor := input; rotation := fst code; translation := snd code;
     sample_seqIdx := seqIdx lk; sample_frame1 := frame1 lk;
     sample_frame2 := frame2 lk; sample_endOfSequence := endOfSequence lk |}.
End GetItem.

(** ** Vocabulary of the statements *)

(** The spans [endFrame_i - startFrame_i] of the windows, and sums of them. *)
Definition spans (starts ends : list Z) : list Z := zip_with Z.sub ends starts.

Definition sum_Z (l : list Z) : Z := fold_right Z.add 0 l.

(** [maxFrame[seq]] for a sequence id of the table, 0 otherwise. *)
Definition max_frame (seq : Z) : Z :=
  match py_get kitti_max_frames seq with Ok m => m | Raise _ => 0 end.

Definition seq_in_range (seq : Z) : bool := (0 <=? seq) && (seq <=? 10).

Definition start_ok (seq s : Z) : bool := (0 <=? s) && (s <=? max_frame seq).

Definition end_ok (seq s e : Z) : bool :=
  (0 <=? e) && (s <? e) && (e <=? max_frame seq).

(** The window invariant [0 <= startFrame < endFrame <= maxFrame]. *)
Definition window_ok (seq s e : Z) : bool := start_ok seq s && end_ok seq s e.

(** Window [i] of the three lists, when all three have it. *)
Definition window (seqs starts ends : list Z) (i : nat) : option (Z * Z * Z) :=
  match seqs !! i, starts !! i, ends !! i with
  | Some q, Some s, Some e => Some (q, s, e)
  | _, _, _ => None
  end.

(** [prefix ds n] is the sum of the spans of the first [n] windows. *)
Definition prefix (ds : KITTIDataset) (n : nat) : Z :=
  sum_Z (take n (spans (startFrames ds) (endFrames ds))).

(** The key the scan returns for [idx]: the table has an entry at [n], it
    is at least [idx], and every earlier entry is below [idx]. *)
Definition routes_to (ds : KITTIDataset) (idx : Z) (n : nat) : Prop :=
  (n < length (sequences ds))%nat /\ idx <= prefix ds (S n) /\
  forall m, (m < n)%nat -> prefix ds (S m) < idx.

(** The facts [__init__] establishes about the object it returns. *)
Record constructed (ds : KITTIDataset) : Prop := {
  c_nonempty : sequences ds <> [];
  c_range : Forall (fun q => seq_in_range q = true) (sequences ds);
  c_starts : length (startFrames ds) = length (sequences ds);
  c_ends : length (endFrames ds) = length (sequences ds);
  c_windows : forall j q s e,
    window (sequences ds) (startFrames ds) (endFrames ds) j = Some (q, s, e) ->
    window_ok q s e = true;
  c_length : length_ ds = sum_Z (spans (startFrames ds) (endFrames ds));
  c_table_length : length (cumulativeLengths ds) = length (sequences ds);
  c_table : forall j, (j < length (sequences ds))%nat ->
    cumulativeLengths ds !! j = Some (prefix ds (S j))
}.

(** The object [ds] with another parameterization tag. *)
Definition with_tag (p : string) (ds : KITTIDataset) : KITTIDataset :=
  {| baseDir := baseDir ds; imgDir := imgDir ds; poseDir := poseDir ds;
     KITTIMaxFrames := KITTIMaxFrames ds; width := width ds;
     height := height ds; channels := channels ds;
     sequences := sequences ds; startFrames := startFrames ds;
     endFrames := endFrames ds; parameterization := p;
     length_ := length_ ds; cumulativeLengths := cumulativeLengths ds |}.

Definition recognized (tag : string) : bool :=
  String.eqb tag "default" || String.eqb tag "quaternion"
  || String.eqb tag "euler" || String.eqb tag "se3".

(** ** A world of integer poses

    An instance of [Externals] over [Z], to run [__getitem__] on: every
    sequence has six frames, the camera moves one unit along z per frame and
    turns a quarter about z every other frame, and matrices are multiplied
    and (when rigid) inverted exactly. *)
Module IntWorld.

Definition dot4 (u v : Vec4 Z) : Z :=
  let '(a, b, c, d) := u in let '(x, y, z, w) := v in
  a * x + b * y + c * z + d * w.

Definition col (m : Mat4 Z) (j : nat) : Vec4 Z :=
  let pick (r : Vec4 Z) :=
    let '(a, b, c, d) := r in
    match j with O => a | 1%nat => b | 2%nat => c | _ => d end in
  let '(r0, r1, r2, r3) := m in (pick r0, pick r1, pick r2, pick r3).

Definition row_times (r : Vec4 Z) (m : Mat4 Z) : Vec4 Z :=
  (dot4 r (col m 0), dot4 r (col m 1), dot4 r (col m 2), dot4 r (col m 3)).

Definition mul (a b : Mat4 Z) : Mat4 Z :=
  let '(r0, r1, r2, r3) := a in
  (row_times r0 b, row_times r1 b, row_times r2 b, row_times r3 b).

Definition identity : Mat4 Z :=
  ((1, 0, 0, 0), (0, 1, 0, 0), (0, 0, 1, 0), (0, 0, 0, 1)).

Definition mat_eqb (a b : Mat4 Z) : bool :=
  let veq (u v : Vec4 Z) :=
    let '(a, b, c, d) := u in let '(x, y, z, w) := v in
    (a =? x) && (b =? y) && (c =? z) && (d =? w) in
  let '(a0, a1, a2, a3) := a in let '(b0, b1, b2, b3) := b in
  veq a0 b0 && veq a1 b1 && veq a2 b2 && veq a3 b3.

(** The closed form [[R^T, -R^T t; 0, 1]], kept only when it is the
    inverse. *)
Definition rigid_inverse (m : Mat4 Z) : result (Mat4 Z) :=
  let '((a0, a1, a2, t0), (b0, b1, b2, t1), (c0, c1, c2, t2), _) := m in
  let cand : Mat4 Z :=
    ((a0, b0, c0, - (a0 * t0 + b0 * t1 + c0 * t2)),
     (a1, b1, c1, - (a1 * t0 + b1 * t1 + c1 * t2)),
     (a2, b2, c2, - (a2 * t0 + b2 * t1 + c2 * t2)),
     (0, 0, 0, 1)) in
  if mat_eqb (mul cand m) identity then Ok cand else Raise LinAlgError.

(** Even frames look along x, odd frames are turned a quarter about z. *)
Definition pose_row (frame : Z) : list Z :=
  if Z.even frame
  then [1; 0; 0; 0;  0; 1; 0; 0;  0; 0; 1; frame]
  else [0; -1; 0; 0;  1; 0; 0; 0;  0; 0; 1; frame].

Definition pose_file (dir : string) (seq : Z) : result (list (list Z)) :=
  if seq_in_range seq then Ok (map pose_row (py_range 6))
  else Raise FileError.

Definition image_pair (dir : string) (seq f1 f2 c h w : Z)
  : result (Z * Z * Z) :=
  if seq_in_range seq && (0 <=? f1) && (f1 <? 6) && (0 <=? f2) && (f2 <? 6)
  then Ok (seq, f1, f2) else Raise FileError.

(** Stand-ins for the three decompositions: the matrix entries the real
    ones take their angles and quaternion components from. *)
Definition rpy_entries (R : Mat3 Z) : Vec3 Z :=
  let '((_, _, _), (b0, _, _), (c0, c1, _)) := R in (c1, c0, b0).

Definition eul_entries (R : Mat3 Z) : Vec3 Z :=
  let '((_, a1, a2), (_, _, b2), (_, _, _)) := R in (b2, a2, a1).

Definition quat_entries (R : Mat3 Z) : Vec4 Z :=
  let '((a0, a1, a2), (b0, b1, b2), (c0, c1, c2)) := R in
  (1 + a0 + b1 + c2, c1 - b2, a2 - c0, b0 - a1).

Definition world : Externals := {|
  Scalar := Z;
  Tensor := (Z * Z * Z)%type;
  f_zero := 0;
  f_one := 1;
  f_ten := 10;
  f_mul := Z.mul;
  to_float32 := fun x => x;
  load_input := image_pair;
  np_loadtxt := pose_file;
  np_linalg_inv := rigid_inverse;
  np_dot := mul;
  tr2rpy := rpy_entries;
  r2q := quat_entries;
  tr2eul := eul_entries
|}.

End IntWorld.

(** The owning window in the words of the spec: the smallest [k] with
    [cumulative[k] > idx]. *)
Fixpoint owner_from (a : list Z) (x : Z) (i : Z) : result Z :=
  match a with
  | [] => Raise OutOfRangeError
  | v :: a' => if x <? v then Ok i else owner_from a' x (i + 1)
  end.

Definition spec_owner (a : list Z) (x : Z) : result Z := owner_from a x 0.

(** The two-window configuration (seq0, 0, 3), (seq1, 0, 4). *)
Definition three_four : result KITTIDataset :=
  init "kitti" (Some [0; 1]) (Some [0; 0]) (Some [3; 4]) "default" 1280 384.

Definition three_four_ds : KITTIDataset :=
  {| baseDir := "kitti"; imgDir := "kitti/sequences"; poseDir := "kitti/poses";
     KITTIMaxFrames := kitti_max_frames; width := 1280; height := 384;
     channels := 3; sequences := [0; 1]; startFrames := [0; 0];
     endFrames := [3; 4]; parameterization := "default"; length_ := 7;
     cumulativeLengths := [3; 7] |}.

(** The two-window configuration (seq0, 0, 3), (seq1, 0, 2). *)
Definition two_windows (tag : string) : result KITTIDataset :=
  init "kitti" (Some [0; 1]) (Some [0; 0]) (Some [3; 2]) tag 1280 384.

(** One window of sequence 0 starting inside the recording. *)
Definition late_window : result KITTIDataset :=
  init "kitti" (Some [0]) (Some [2]) (Some [5]) "default" 1280 384.

(** The objects the two configurations construct. *)
Definition two_windows_ds (tag : string) : KITTIDataset :=
  {| baseDir := "kitti"; imgDir := "kitti/sequences"; poseDir := "kitti/poses";
     KITTIMaxFrames := kitti_max_frames; width := 1280; height := 384;
     channels := 3; sequences := [0; 1]; startFrames := [0; 0];
     endFrames := [3; 2]; parameterization := tag; length_ := 5;
     cumulativeLengths := [3; 5] |}.

Definition late_window_ds : KITTIDataset :=
  {| baseDir := "kitti"; imgDir := "kitti/sequences"; poseDir := "kitti/poses";
     KITTIMaxFrames := kitti_max_frames; width := 1280; height := 384;
     channels := 3; sequences := [0]; startFrames := [2];
     endFrames := [5]; parameterization := "default"; length_ := 3;
     cumulativeLengths := [3] |}.

(** The run of [__getitem__] at index 1 of the two-window dataset in the
    integer world: frames 1 and 2 of sequence 0. *)
Definition lookup_1 : FrameLookup :=
  {| seqKey := 0; seqIdx := 0; frame1 := 1; frame2 := 2;
     endOfSequence := false |}.

Definition pose_1 : Mat4 Z :=
  ((0, -1, 0, 0), (1, 0, 0, 0), (0, 0, 1, 1), (0, 0, 0, 1)).

Definition pose_2 : Mat4 Z :=
  ((1, 0, 0, 0), (0, 1, 0, 0), (0, 0, 1, 2), (0, 0, 0, 1)).

Definition inverse_1 : Mat4 Z :=
  ((0, 1, 0, 0), (-1, 0, 0, 0), (0, 0, 1, -1), (0, 0, 0, 1)).

Ltac reads_by_evaluation :=
  split; [reflexivity|]; split; [reflexivity|];
  split; [eexists; repeat split; reflexivity | reflexivity].

(** ** Vocabulary of the further properties *)

(** The partial sums of [l] on top of [acc]: what the loop of [__init__]
    leaves in [cumulativeLengths]. *)
Fixpoint running_sums (acc : Z) (l : list Z) : list Z :=
  match l with
  | [] => []
  | x :: l' => (acc + x) :: running_sums (acc + x) l'
  end.

(** A configuration all checks of [__init__] accept: at least one sequence,
    ids of the table, one start and one end frame per sequence, and every
    window within its sequence. *)
Definition valid_config (seqs starts ends : list Z) : Prop :=
  seqs <> [] /\
  Forall (fun q => seq_in_range q = true) seqs /\
  length starts = length seqs /\
  length ends = length seqs /\
  forall i q s e,
    window seqs starts ends i = Some (q, s, e) -> window_ok q s e = true.

(** The object [__init__] builds from an accepted configuration. *)
Definition constructed_object (b : string) (seqs starts ends : list Z)
    (p : string) (w h : Z) : KITTIDataset :=
  {| baseDir := b;
     imgDir := path_join b "sequences";
     poseDir := path_join b "poses";
     KITTIMaxFrames := kitti_max_frames;
     width := w;
     height := h;
     channels := 3;
     sequences := seqs;
     startFrames := starts;
     endFrames := ends;
     parameterization := p;
     length_ := sum_Z (spans starts ends);
     cumulativeLengths := running_sums 0 (spans starts ends) |}.

(** The exceptions a failing [__init__] can end in: the [ValueError]s of its
    own checks and of [min], and the [TypeError] of subscripting an omitted
    frame list. *)
Definition init_error (st en : option (list Z)) (e : exn) : Prop :=
  match e with
  | ValueError NegativeLength | ValueError CannotReshape => False
  | ValueError _ => True
  | TypeError => st = None \/ en = None
  | _ => False
  end.

(** The training configuration of [main.py]: sequence 0, frames 0 to 4500. *)
Definition main_train (tag : string) (w h : Z) : result KITTIDataset :=
  init "kitti" (Some [0]) (Some [0]) (Some [4500]) tag w h.

(** The twelve entries of the first three rows of a pose, row by row, and
    its last row. *)
Definition top_rows {S : Type} (m : Mat4 S) : list S :=
  let '(r0, r1, r2, _) := m in flat4 r0 ++ flat4 r1 ++ flat4 r2.

Definition bottom_row {S : Type} (m : Mat4 S) : Vec4 S :=
  let '(_, _, _, r3) := m in r3.

(** The four tags [__getitem__] compares with. *)
Definition tags : list string := ["default"; "quaternion"; "euler"; "se3"]%string.

(** ** [preprocess_img] *)

(** What [preprocess_img] does to one value of the array: channel [k] of a
    pixel is replaced by [(x - channelwiseMean[k]) / channelwiseStdDev[k]],
    stored back in the array; [pixel_zero] is what [np.zeros_like] fills
    with. *)
Class Pixels : Type := {
  Pixel : Type;
  normalize : nat -> Pixel -> Pixel;
  pixel_zero : Pixel
}.

(** The two ways the numpy calls of [preprocess_img] raise: a channel index
    beyond the last axis ([IndexError]) and a negative target dimension
    ([ValueError] of [np.resize]). *)
Inductive array_error : Type :=
| AxisIndexError
| NegativeDimension.

Section Preprocess.
Context {Px : Pixels}.

(** A three-dimensional array as numpy holds it: the shape and the values
    in row-major order. *)
Record ndarray3 : Type := {
  dim0 : nat;
  dim1 : nat;
  dim2 : nat;
  buffer : list Pixel
}.

Definition size (a : ndarray3) : nat := (dim0 a * dim1 a * dim2 a)%nat.

(** The buffer holds one value per index of the shape. *)
Definition contiguous (a : ndarray3) : Prop := length (buffer a) = size a.

(** [a[i, j, k]] *)
Definition item (a : ndarray3) (i j k : nat) : option Pixel :=
  buffer a !! ((i * dim1 a + j) * dim2 a + k)%nat.

(** [img[:, :, k] = (img[:, :, k] - mean[k]) / std[k]] *)
Definition normalize_channel (k : nat) (a : ndarray3)
  : array_error + ndarray3 :=
  if (dim2 a <=? k)%nat then inl AxisIndexError
  else inr {| dim0 := dim0 a; dim1 := dim1 a; dim2 := dim2 a;
              buffer := imap (fun i x =>
                                if (Nat.modulo i (dim2 a) =? k)%nat
                                then normalize k x else x) (buffer a) |}.

(** [np.resize(a, (d0, d1, d2))]: the flattened array, repeated as often as
    needed and cut to the new size; zeros when either size is 0. *)
Definition np_resize (a : ndarray3) (d0 d1 d2 : Z) : array_error + ndarray3 :=
  if (d0 <? 0) || (d1 <? 0) || (d2 <? 0) then inl NegativeDimension else
  let new_size := Z.to_nat (d0 * d1 * d2) in
  let old_size := length (buffer a) in
  let data :=
    if (old_size =? 0)%nat || (new_size =? 0)%nat
    then replicate new_size pixel_zero
    else
      let repeats := Z.to_nat (- (- Z.of_nat new_size / Z.of_nat old_size)) in
      take new_size (concat (replicate repeats (buffer a))) in
  inr {| dim0 := Z.to_nat d0; dim1 := Z.to_nat d1; dim2 := Z.to_nat d2;
         buffer := data |}.

(** [torch.from_numpy(a).permute(2, 0, 1)]: the tensor [t] with
    [t[k, i, j] = a[i, j, k]], its values listed in the order of its own
    shape. *)
Definition permute_2_0_1 (a : ndarray3) : ndarray3 :=
  {| dim0 := dim2 a; dim1 := dim0 a; dim2 := dim1 a;
     buffer :=
       flat_map (fun k =>
         flat_map (fun i =>
           map (fun j =>
                  nth ((i * dim1 a + j) * dim2 a + k)%nat (buffer a) pixel_zero)
               (seq 0 (dim1 a)))
           (seq 0 (dim0 a)))
         (seq 0 (dim2 a)) |}.

(** The array after the three assignments of [preprocess_img], on an
    image of at least three channels. *)
Definition normalized (a : ndarray3) : ndarray3 :=
  {| dim0 := dim0 a; dim1 := dim1 a; dim2 := dim2 a;
     buffer := imap (fun i x =>
                       let k := Nat.modulo i (dim2 a) in
                       if (k <? 3)%nat then normalize k x else x) (buffer a) |}.

(** [KITTIDataset.preprocess_img]; the three assignments update the
    argument in place, the tensor returned is new. *)
Definition preprocess_img (self : KITTIDataset) (img : ndarray3)
  : array_error + ndarray3 :=
  match normalize_channel 0 img with
  | inl e => inl e
  | inr img0 =>
      match normalize_channel 1 img0 with
      | inl e => inl e
      | inr img1 =>
          match normalize_channel 2 img1 with
          | inl e => inl e
          | inr img2 =>
              match np_resize img2 (height self) (width self) (channels self) with
              | inl e => inl e
              | inr resized => inr (permute_2_0_1 resized)
              end
          end
      end
  end.
End Preprocess.

(** Pixels over [Z] with the constants of the class, mean 0 and deviation
    1, and a 2 x 2 image of three channels whose values are their own
    positions. *)
Definition unit_pixels : Pixels :=
  {| Pixel := Z; normalize := fun _ x => (x - 0) / 1; pixel_zero := 0 |}.

Definition small_image : @ndarray3 unit_pixels :=
  @Build_ndarray3 unit_pixels 2 2 3 [0; 1; 2; 3; 4; 5; 6; 7; 8; 9; 10; 11].

(** A dataset object with a small target size, [height] x [width]. *)
Definition small_target (h w : Z) : KITTIDataset :=
  constructed_object "kitti" [0] [0] [5] "default" w h.

(** * Properties *)

(** ** Python list primitives *)

Lemma bind_ok {A B : Type} (c : result A) (k : A -> result B) (b : B) :
  bind c k = Ok b -> exists a, c = Ok a /\ k a = Ok b.
Proof. destruct c as [a|e]; simpl; [eauto | discriminate]. Qed.

Lemma py_index_nat {A : Type} (l : list A) (n : nat) :
  (n < length l)%nat -> py_index l (Z.of_nat n) = Ok n.
Proof.
  intros Hn. unfold py_index, len.
  replace ((0 <=? Z.of_nat n) && (Z.of_nat n <? Z.of_nat (length l)))
    with true by lia.
  now rewrite Nat2Z.id.
Qed.

Lemma py_get_nat {A : Type} (l : list A) (n : nat) (x : A) :
  l !! n = Some x -> py_get l (Z.of_nat n) = Ok x.
Proof.
  intros H. unfold py_get.
  rewrite py_index_nat by (eapply lookup_lt_Some; eassumption).
  simpl. now rewrite H.
Qed.

Lemma py_set_nat {A : Type} (l : list A) (n : nat) (v : A) :
  (n < length l)%nat -> py_set l (Z.of_nat n) v = Ok (<[n := v]> l).
Proof. intros Hn. unfold py_set. now rewrite py_index_nat. Qed.

Lemma sum_Z_app (l k : list Z) : sum_Z (l ++ k) = sum_Z l + sum_Z k.
Proof. induction l as [|x l IH]; simpl; [reflexivity | rewrite IH; lia]. Qed.

Lemma sum_Z_take_S (l : list Z) (n : nat) (x : Z) :
  l !! n = Some x -> sum_Z (take (S n) l) = sum_Z (take n l) + x.
Proof.
  intros H. erewrite take_S_r by eassumption.
  rewrite sum_Z_app. simpl. lia.
Qed.

Lemma for_each_app {S : Type} (xs ys : list Z) (body : Z -> S -> result S)
    (st : S) :
  for_each (xs ++ ys) body st = (st' <- for_each xs body st ;; for_each ys body st').
Proof.
  revert st. induction xs as [|x xs IH]; intros st; simpl; [reflexivity|].
  destruct (body x st); simpl; [apply IH | reflexivity].
Qed.

Lemma py_range_S (n : nat) : py_range (S n) = py_range n ++ [Z.of_nat n].
Proof. unfold py_range. rewrite seq_S, map_app. reflexivity. Qed.

Example path_join_cases :
  path_join "kitti" "sequences" = "kitti/sequences"%string /\
  path_join "kitti/" "sequences" = "kitti/sequences"%string /\
  path_join "" "poses" = "poses"%string /\
  path_join "/data/kitti/" "poses" = "/data/kitti/poses"%string.
Proof. repeat split; reflexivity. Qed.

(** ** The sequence table and the window checks *)

Lemma max_frame_get (q : Z) :
  seq_in_range q = true -> py_get kitti_max_frames q = Ok (max_frame q).
Proof.
  unfold seq_in_range. intros H.
  assert (Hq : q = 0 \/ q = 1 \/ q = 2 \/ q = 3 \/ q = 4 \/ q = 5 \/ q = 6
               \/ q = 7 \/ q = 8 \/ q = 9 \/ q = 10) by lia.
  repeat (destruct Hq as [-> | Hq]; [reflexivity|]). subst q. reflexivity.
Qed.

Lemma fold_min_le (l : list Z) (x : Z) :
  fold_left Z.min l x <= x /\ Forall (fun y => fold_left Z.min l x <= y) l.
Proof.
  revert x. induction l as [|y l IH]; intros x; simpl.
  - split; [lia | constructor].
  - destruct (IH (Z.min x y)) as [H1 H2]. split; [lia|].
    constructor; [lia | assumption].
Qed.

Lemma fold_max_ge (l : list Z) (x : Z) :
  x <= fold_left Z.max l x /\ Forall (fun y => y <= fold_left Z.max l x) l.
Proof.
  revert x. induction l as [|y l IH]; intros x; simpl.
  - split; [lia | constructor].
  - destruct (IH (Z.max x y)) as [H1 H2]. split; [lia|].
    constructor; [lia | assumption].
Qed.

Lemma fold_min_in (l : list Z) (x : Z) :
  fold_left Z.min l x = x \/ In (fold_left Z.min l x) l.
Proof.
  revert x. induction l as [|y l IH]; intros x; simpl; [now left|].
  destruct (IH (Z.min x y)) as [H | H]; [|now right; right].
  rewrite H. destruct (Z.min_spec x y) as [[_ ->] | [_ ->]]; auto.
Qed.

Lemma fold_max_in (l : list Z) (x : Z) :
  fold_left Z.max l x = x \/ In (fold_left Z.max l x) l.
Proof.
  revert x. induction l as [|y l IH]; intros x; simpl; [now left|].
  destruct (IH (Z.max x y)) as [H | H]; [|now right; right].
  rewrite H. destruct (Z.max_spec x y) as [[_ ->] | [_ ->]]; auto.
Qed.

Lemma range_check_pass (seqs : list Z) :
  seqs <> [] -> Forall (fun q => seq_in_range q = true) seqs ->
  range_check seqs = Ok false.
Proof.
  intros Hne Hall. destruct seqs as [|x l]; [congruence|].
  unfold range_check. simpl.
  assert (Hin : forall y, In y (x :: l) -> 0 <= y <= 10).
  { intros y Hy. rewrite Forall_forall in Hall.
    specialize (Hall y). rewrite list_elem_of_In in Hall.
    specialize (Hall Hy). unfold seq_in_range in Hall. lia. }
  assert (Hlo : 0 <= fold_left Z.min l x).
  { destruct (fold_min_in l x) as [-> | H];
      [apply Hin; now left | apply Hin; now right]. }
  assert (Hhi : fold_left Z.max l x <= 10).
  { destruct (fold_max_in l x) as [-> | H];
      [apply Hin; now left | apply Hin; now right]. }
  replace (fold_left Z.min l x <? 0) with false by lia.
  simpl. f_equal. lia.
Qed.

Lemma range_check_fail (seqs : list Z) :
  Exists (fun q => seq_in_range q = false) seqs ->
  range_check seqs = Ok true.
Proof.
  intros Hex. destruct seqs as [|x l]; [inversion Hex|].
  unfold range_check. simpl.
  destruct (fold_left Z.min l x <? 0) eqn:Hlo; [reflexivity|].
  simpl. f_equal.
  destruct (fold_min_le l x) as [Hx Hl], (fold_max_ge l x) as [Hx' Hl'].
  apply Exists_exists in Hex as [y [Hy Hbad]].
  assert (fold_left Z.min l x <= y <= fold_left Z.max l x).
  { apply elem_of_cons in Hy as [-> | Hy]; [lia|].
    rewrite Forall_forall in Hl, Hl'. split; [now apply Hl | now apply Hl']. }
  unfold seq_in_range in Hbad. lia.
Qed.

Lemma range_check_inv (seqs : list Z) :
  range_check seqs = Ok false ->
  seqs <> [] /\ Forall (fun q => seq_in_range q = true) seqs.
Proof.
  intros H. split; [intros ->; discriminate|].
  apply Forall_forall. intros q Hq.
  destruct (seq_in_range q) eqn:Hr; [reflexivity|].
  rewrite range_check_fail in H; [discriminate|].
  apply Exists_exists. eauto.
Qed.

(** ** The validation loop *)

Section Loop.
Variables (seqs starts ends : list Z) (raw_starts raw_ends : option (list Z)).

Let body := init_body seqs starts ends raw_starts raw_ends.

Lemma window_Some (i : nat) (q s e : Z) :
  window seqs starts ends i = Some (q, s, e) ->
  seqs !! i = Some q /\ starts !! i = Some s /\ ends !! i = Some e.
Proof.
  unfold window.
  destruct (seqs !! i), (starts !! i), (ends !! i); try discriminate.
  now intros [= -> -> ->].
Qed.

Lemma window_total (i : nat) :
  (i < length seqs)%nat -> length starts = length seqs ->
  length ends = length seqs ->
  exists q s e, window seqs starts ends i = Some (q, s, e).
Proof.
  intros Hi Hs He. unfold window.
  destruct (lookup_lt_is_Some_2 seqs i) as [q ->]; [lia|].
  destruct (lookup_lt_is_Some_2 starts i) as [s ->]; [lia|].
  destruct (lookup_lt_is_Some_2 ends i) as [e ->]; [lia|].
  eauto.
Qed.

(** A window that breaks the invariant stops the loop, whatever the raw
    parameters are. *)
Lemma body_bad (i : nat) (q s e : Z) (st : loop_state) :
  window seqs starts ends i = Some (q, s, e) ->
  seq_in_range q = true -> window_ok q s e = false ->
  body (Z.of_nat i) st
  = Raise (ValueError (if start_ok q s then InvalidEndFrame q
                       else InvalidStartFrame q)).
Proof.
  intros Hw Hq Hbad. apply window_Some in Hw as (Hq' & Hs & He).
  destruct st as [L cum]. unfold body, init_body.
  rewrite (py_get_nat _ _ _ Hq'), (py_get_nat _ _ _ Hs). simpl.
  rewrite (max_frame_get _ Hq). unfold window_ok in Hbad.
  destruct (start_ok q s) eqn:Hst; unfold start_ok in Hst.
  - replace (s <? 0) with false by lia. simpl.
    replace (max_frame q <? s) with false by lia.
    rewrite (py_get_nat _ _ _ He). simpl.
    simpl in Hbad. unfold end_ok in Hbad.
    destruct ((e <? 0) || (e <=? s)) eqn:Hes; simpl; [reflexivity|].
    replace (max_frame q <? e) with true by lia. reflexivity.
  - destruct (s <? 0) eqn:Hneg; simpl; [reflexivity|].
    replace (max_frame q <? s) with true by lia. reflexivity.
Qed.

(** A window that keeps the invariant passes both checks; the
    accumulation then subscripts the raw parameters. *)
Lemma body_good (i : nat) (q s e : Z) (L : Z) (cum : list Z) :
  window seqs starts ends i = Some (q, s, e) ->
  seq_in_range q = true -> window_ok q s e = true ->
  body (Z.of_nat i) (L, cum)
  = (re <- py_get_opt raw_ends (Z.of_nat i) ;;
     rs <- py_get_opt raw_starts (Z.of_nat i) ;;
     cum' <- py_set cum (Z.of_nat i) (L + (re - rs)) ;;
     Ok (L + (re - rs), cum')).
Proof.
  intros Hw Hq Hok. apply window_Some in Hw as (Hq' & Hs & He).
  unfold body, init_body.
  rewrite (py_get_nat _ _ _ Hq'), (py_get_nat _ _ _ Hs). simpl.
  rewrite (max_frame_get _ Hq). unfold window_ok, start_ok, end_ok in Hok.
  replace (s <? 0) with false by lia. simpl.
  replace (max_frame q <? s) with false by lia.
  rewrite (py_get_nat _ _ _ He). simpl.
  replace ((e <? 0) || (e <=? s)) with false by lia. simpl.
  replace (max_frame q <? e) with false by lia. reflexivity.
Qed.

Hypothesis seqs_in_range : Forall (fun q => seq_in_range q = true) seqs.
Hypothesis starts_length : length starts = length seqs.
Hypothesis ends_length : length ends = length seqs.
(** the attributes are the parameters, when these are given *)
Hypothesis starts_self : forall l, raw_starts = Some l -> l = starts.
Hypothesis ends_self : forall l, raw_ends = Some l -> l = ends.

Lemma window_in_range (i : nat) (q s e : Z) :
  window seqs starts ends i = Some (q, s, e) -> seq_in_range q = true.
Proof.
  intros Hw. apply window_Some in Hw as (Hq & _).
  rewrite Forall_forall in seqs_in_range. apply seqs_in_range.
  eapply list_elem_of_lookup_2. eassumption.
Qed.

(** What an iteration that returns has seen and done. *)
Lemma body_ok_inv (i : nat) (L L' : Z) (cum cum' : list Z) :
  (i < length seqs)%nat -> length cum = length seqs ->
  body (Z.of_nat i) (L, cum) = Ok (L', cum') ->
  exists q s e,
    window seqs starts ends i = Some (q, s, e) /\
    window_ok q s e = true /\
    raw_starts = Some starts /\ raw_ends = Some ends /\
    L' = L + (e - s) /\ cum' = <[i := L']> cum.
Proof.
  intros Hi Hcum Hrun.
  destruct (window_total i Hi starts_length ends_length) as (q & s & e & Hw).
  exists q, s, e. split; [assumption|].
  pose proof (window_in_range _ _ _ _ Hw) as Hq.
  destruct (window_ok q s e) eqn:Hok.
  2:{ rewrite (body_bad _ _ _ _ _ Hw Hq Hok) in Hrun. discriminate. }
  split; [reflexivity|].
  rewrite (body_good _ _ _ _ _ _ Hw Hq Hok) in Hrun.
  apply window_Some in Hw as (_ & Hs & He).
  destruct raw_ends as [re|]; [|discriminate].
  destruct raw_starts as [rs|]; [|simpl in Hrun].
  2:{ destruct (py_get re (Z.of_nat i)); discriminate. }
  rewrite (starts_self rs eq_refl), (ends_self re eq_refl) in *.
  simpl in Hrun.
  rewrite (py_get_nat _ _ _ Hs), (py_get_nat _ _ _ He) in Hrun.
  simpl in Hrun. rewrite py_set_nat in Hrun by lia. simpl in Hrun.
  injection Hrun as <- <-. auto.
Qed.

Lemma body_run (i : nat) (q s e : Z) (L : Z) (cum : list Z) :
  window seqs starts ends i = Some (q, s, e) -> window_ok q s e = true ->
  raw_starts = Some starts -> raw_ends = Some ends ->
  length cum = length seqs ->
  body (Z.of_nat i) (L, cum) = Ok (L + (e - s), <[i := L + (e - s)]> cum).
Proof.
  intros Hw Hok Hrs Hre Hcum.
  rewrite (body_good _ _ _ _ _ _ Hw (window_in_range _ _ _ _ Hw) Hok).
  rewrite Hrs, Hre. apply window_Some in Hw as (Hq & Hs & He). simpl.
  rewrite (py_get_nat _ _ _ Hs), (py_get_nat _ _ _ He). simpl.
  rewrite py_set_nat; [reflexivity|].
  apply lookup_lt_Some in Hq. lia.
Qed.

Lemma span_lookup (i : nat) (q s e : Z) :
  window seqs starts ends i = Some (q, s, e) ->
  spans starts ends !! i = Some (e - s).
Proof.
  intros Hw. apply window_Some in Hw as (_ & Hs & He).
  unfold spans. rewrite lookup_zip_with, He. simpl. now rewrite Hs.
Qed.

Variable cum0 : list Z.
Hypothesis cum0_length : length cum0 = length seqs.

(** The invariant of the loop after [n] iterations. *)
Lemma loop_inv (n : nat) (L : Z) (cum : list Z) :
  (n <= length seqs)%nat ->
  for_each (py_range n) body (0, cum0) = Ok (L, cum) ->
  ((0 < n)%nat -> raw_starts = Some starts /\ raw_ends = Some ends) /\
  L = sum_Z (take n (spans starts ends)) /\
  length cum = length seqs /\
  (forall j, (j < n)%nat ->
     cum !! j = Some (sum_Z (take (S j) (spans starts ends)))) /\
  (forall j, (n <= j)%nat -> cum !! j = cum0 !! j) /\
  (forall j q s e, (j < n)%nat ->
     window seqs starts ends j = Some (q, s, e) -> window_ok q s e = true).
Proof.
  revert L cum. induction n as [|n IH]; intros L cum Hn Hrun.
  - simpl in Hrun. injection Hrun as <- <-.
    repeat split; try (intros; lia); auto.
  - rewrite py_range_S, for_each_app in Hrun.
    apply bind_ok in Hrun as ([L1 cum1] & Hpre & Hlast).
    destruct (IH L1 cum1) as (_ & HL & Hlen & Hlow & Hhigh & Hwin);
      [lia | assumption |].
    simpl in Hlast. apply bind_ok in Hlast as ([L2 cum2] & Hstep & Hret).
    injection Hret as -> ->.
    apply body_ok_inv in Hstep as (q & s & e & Hw & Hok & Hrs & Hre & -> & ->);
      [| lia | assumption].
    pose proof (span_lookup _ _ _ _ Hw) as Hsp.
    assert (HL' : L1 + (e - s) = sum_Z (take (S n) (spans starts ends))).
    { rewrite (sum_Z_take_S _ _ _ Hsp). lia. }
    split; [auto|]. split; [assumption|].
    split; [now rewrite length_insert|].
    split; [|split].
    + intros j Hj. destruct (decide (j = n)) as [-> | Hne].
      * rewrite list_lookup_insert_eq by lia. now rewrite HL'.
      * rewrite list_lookup_insert_ne by lia. apply Hlow. lia.
    + intros j Hj. rewrite list_lookup_insert_ne by lia. apply Hhigh. lia.
    + intros j q' s' e' Hj Hw'. destruct (decide (j = n)) as [-> | Hne].
      * congruence.
      * eapply Hwin; [|eassumption]. lia.
Qed.

(** The loop runs through a prefix of windows that keep the invariant. *)
Lemma loop_run (n : nat) :
  (n <= length seqs)%nat ->
  ((0 < n)%nat -> raw_starts = Some starts /\ raw_ends = Some ends) ->
  (forall j q s e, (j < n)%nat ->
     window seqs starts ends j = Some (q, s, e) -> window_ok q s e = true) ->
  exists L cum,
    for_each (py_range n) body (0, cum0) = Ok (L, cum) /\
    length cum = length seqs.
Proof.
  induction n as [|n IH]; intros Hn Hraw Hwin.
  - exists 0, cum0. auto.
  - destruct Hraw as [Hrs Hre]; [lia|].
    destruct IH as (L & cum & Hrun & Hlen); [lia | auto | |].
    { intros j q s e Hj. apply Hwin. lia. }
    destruct (window_total n) as (q & s & e & Hw); [lia | auto | auto |].
    exists (L + (e - s)), (<[n := L + (e - s)]> cum).
    rewrite py_range_S, for_each_app, Hrun. cbn [for_each bind].
    rewrite (body_run _ _ _ _ _ _ Hw) by eauto.
    cbn [bind]. now rewrite length_insert.
Qed.

(** The loop stops at the first window that breaks the invariant, with
    the error of that window. *)
Lemma loop_first_bad (i : nat) (q s e : Z) :
  window seqs starts ends i = Some (q, s, e) -> window_ok q s e = false ->
  ((0 < i)%nat -> raw_starts = Some starts /\ raw_ends = Some ends) ->
  (forall j q' s' e', (j < i)%nat ->
     window seqs starts ends j = Some (q', s', e') ->
     window_ok q' s' e' = true) ->
  for_each (py_range (length seqs)) body (0, cum0)
  = Raise (ValueError (if start_ok q s then InvalidEndFrame q
                       else InvalidStartFrame q)).
Proof.
  intros Hw Hbad Hraw Hwin.
  assert (Hi : (i < length seqs)%nat).
  { apply window_Some in Hw as (Hq & _). eapply lookup_lt_Some, Hq. }
  destruct (loop_run i) as (L & cum & Hrun & _); [lia | auto | auto |].
  assert (Hsplit : py_range (length seqs)
                   = py_range (S i)
                     ++ map Z.of_nat (seq (S i) (length seqs - S i))).
  { unfold py_range. rewrite <- map_app, <- seq_app.
    do 2 f_equal. lia. }
  rewrite Hsplit, for_each_app, py_range_S, for_each_app, Hrun.
  cbn [for_each bind].
  rewrite (body_bad _ _ _ _ _ Hw (window_in_range _ _ _ _ Hw) Hbad).
  reflexivity.
Qed.
End Loop.

(** ** What a constructed dataset satisfies *)

Lemma default_self {A : Type} (d : list A) (raw : option (list A)) (l : list A) :
  raw = Some l -> l = default d raw.
Proof. now intros ->. Qed.

Lemma spans_length (starts ends : list Z) :
  length starts = length ends -> length (spans starts ends) = length ends.
Proof. intros H. unfold spans. rewrite length_zip_with. lia. Qed.

(** A construction that returns has run the whole loop on given lists. *)
Lemma init_ok_inv (b : string) (sq st en : option (list Z)) (p : string)
    (w h : Z) (ds : KITTIDataset) :
  init b sq st en p w h = Ok ds ->
  sequences ds = default [1] sq /\
  st = Some (startFrames ds) /\ en = Some (endFrames ds) /\
  parameterization ds = p /\ constructed ds.
Proof.
  unfold init. intros H.
  apply bind_ok in H as (oor & Hrange & H).
  destruct oor; [discriminate|].
  apply range_check_inv in Hrange as [Hne Hall].
  destruct (len (default [1] sq) =? len (default [0] st)) eqn:Hls;
    [|discriminate].
  destruct (len (default [1] sq) =? len (default [1100] en)) eqn:Hle;
    [|discriminate].
  unfold len in Hls, Hle. simpl in H.
  apply bind_ok in H as ([L cum] & Hloop & H).
  destruct (L <? 0); [discriminate|]. injection H as <-.
  apply loop_inv in Hloop as (Hraw & HL & Hlen & Htab & _ & Hwin);
    try lia; auto using default_self, length_replicate.
  destruct Hraw as [Hst Hen].
  { destruct (default [1] sq); [congruence | simpl; lia]. }
  simpl. do 4 (split; [auto|]).
  constructor; simpl; auto; try lia.
  - intros j q s e Hw. apply (Hwin j q s e); [|assumption].
    unfold window in Hw.
    destruct (default [1] sq !! j) eqn:Hq; [|discriminate].
    now apply lookup_lt_Some in Hq.
  - rewrite HL, take_ge; [reflexivity|]. rewrite spans_length; lia.
Qed.

Lemma init_constructed (b : string) (sq st en : option (list Z)) (p : string)
    (w h : Z) (ds : KITTIDataset) :
  init b sq st en p w h = Ok ds -> constructed ds.
Proof. intros H. now apply init_ok_inv in H. Qed.

Lemma init_tag (b : string) (sq st en : option (list Z)) (p p' : string)
    (w h : Z) :
  init b sq st en p w h
  = (ds <- init b sq st en p' w h ;; Ok (with_tag p ds)).
Proof.
  unfold init. destruct (range_check (default [1] sq)) as [[|]|]; try reflexivity.
  simpl.
  destruct (negb (len (default [1] sq) =? len (default [0] st))); [reflexivity|].
  destruct (negb (len (default [1] sq) =? len (default [1100] en)));
    [reflexivity|].
  destruct (for_each _ _ _) as [[L cum]|]; [|reflexivity]. simpl.
  destruct (L <? 0); reflexivity.
Qed.

(** ** Sums of spans *)

Lemma sum_Z_pos (l : list Z) : Forall (fun x => 0 < x) l -> 0 <= sum_Z l.
Proof. induction 1; simpl; lia. Qed.

Lemma sum_Z_take_mono (l : list Z) (j k : nat) :
  Forall (fun x => 0 < x) l -> (j <= k)%nat ->
  sum_Z (take j l) <= sum_Z (take k l).
Proof.
  intros Hpos Hjk. replace k with (j + (k - j))%nat by lia.
  rewrite <- take_take_drop, sum_Z_app.
  assert (0 <= sum_Z (take (k - j) (drop j l))); [|lia].
  apply sum_Z_pos, Forall_take, Forall_drop, Hpos.
Qed.

Lemma sum_Z_take_strict (l : list Z) (j : nat) :
  Forall (fun x => 0 < x) l -> (j < length l)%nat ->
  sum_Z (take j l) < sum_Z (take (S j) l).
Proof.
  intros Hpos Hj. destruct (lookup_lt_is_Some_2 l j Hj) as [x Hx].
  rewrite (sum_Z_take_S _ _ _ Hx).
  rewrite Forall_forall in Hpos.
  specialize (Hpos x (list_elem_of_lookup_2 _ _ _ Hx)). lia.
Qed.

Lemma constructed_spans_pos (ds : KITTIDataset) :
  constructed ds ->
  Forall (fun x => 0 < x) (spans (startFrames ds) (endFrames ds)).
Proof.
  intros C. apply Forall_lookup. intros j x Hx.
  unfold spans in Hx. rewrite lookup_zip_with in Hx.
  destruct (endFrames ds !! j) as [e|] eqn:He; [|discriminate]. simpl in Hx.
  destruct (startFrames ds !! j) as [s|] eqn:Hs; [|discriminate].
  injection Hx as <-.
  destruct (lookup_lt_is_Some_2 (sequences ds) j) as [q Hq].
  { apply lookup_lt_Some in He. rewrite <- (c_ends ds C). exact He. }
  pose proof (c_windows ds C j q s e) as Hok. unfold window in Hok.
  rewrite Hq, Hs, He in Hok. specialize (Hok eq_refl).
  unfold window_ok, end_ok in Hok. lia.
Qed.

(** ** The scan of the cumulative table *)

Lemma first_ge_from_found (a : list Z) (x i : Z) (n : nat) (v : Z) :
  a !! n = Some v -> x <= v ->
  (forall m u, (m < n)%nat -> a !! m = Some u -> u < x) ->
  first_ge_from a x i = Ok (i + Z.of_nat n).
Proof.
  revert i n. induction a as [|y a IH]; intros i n Hn Hv Hlow; [discriminate|].
  destruct n as [|n]; simpl in *.
  - injection Hn as ->. replace (x <=? v) with true by lia. f_equal. lia.
  - pose proof (Hlow 0%nat y ltac:(lia) eq_refl).
    replace (x <=? y) with false by lia.
    rewrite (IH (i + 1) n Hn Hv); [f_equal; lia|].
    intros m u Hm Hu. apply (Hlow (S m) u); [lia | exact Hu].
Qed.

Lemma first_ge_from_none (a : list Z) (x i : Z) :
  Forall (fun v => v < x) a -> first_ge_from a x i = Raise OutOfRangeError.
Proof.
  revert i. induction a as [|y a IH]; intros i Hall; [reflexivity|].
  inversion_clear Hall as [|? ? Hy Ha]. simpl.
  replace (x <=? y) with false by lia. now apply IH.
Qed.

(** The scan returns the least index whose entry is at least [x]. *)
Lemma first_ge_from_inv (a : list Z) (x i k : Z) :
  first_ge_from a x i = Ok k ->
  exists n v, k = i + Z.of_nat n /\ a !! n = Some v /\ x <= v /\
    forall m u, (m < n)%nat -> a !! m = Some u -> u < x.
Proof.
  revert i. induction a as [|y a IH]; intros i H; [discriminate|].
  simpl in H. destruct (x <=? y) eqn:Hxy.
  - injection H as <-. exists 0%nat, y.
    repeat split; [lia | lia | intros; lia].
  - apply IH in H as (n & v & -> & Hn & Hv & Hlow).
    exists (S n), v. repeat split; [lia | assumption | assumption |].
    intros [|m] u Hm Hu; simpl in Hu; [injection Hu as <-; lia|].
    apply (Hlow m u); [lia | exact Hu].
Qed.

Lemma first_ge_from_raise (a : list Z) (x i : Z) (e : exn) :
  first_ge_from a x i = Raise e ->
  e = OutOfRangeError /\ Forall (fun v => v < x) a.
Proof.
  revert i. induction a as [|y a IH]; intros i H; simpl in H.
  - injection H as <-. split; [reflexivity | constructor].
  - destruct (x <=? y) eqn:Hxy; [discriminate|].
    apply IH in H as [-> Ha]. split; [reflexivity|].
    constructor; [lia | assumption].
Qed.

(** ** The lookup on a constructed dataset *)

Section Lookup.
Variable ds : KITTIDataset.
Hypothesis C : constructed ds.

Lemma prefix_all : prefix ds (length (sequences ds)) = length_ ds.
Proof.
  unfold prefix. rewrite (c_length ds C), take_ge; [reflexivity|].
  rewrite spans_length by (now rewrite (c_starts ds C), (c_ends ds C)).
  rewrite (c_ends ds C). lia.
Qed.

Lemma prefix_mono (j k : nat) : (j <= k)%nat -> prefix ds j <= prefix ds k.
Proof. apply sum_Z_take_mono, constructed_spans_pos, C. Qed.

Lemma prefix_strict (j : nat) :
  (j < length (sequences ds))%nat -> prefix ds j < prefix ds (S j).
Proof.
  intros Hj. apply sum_Z_take_strict; [apply constructed_spans_pos, C|].
  rewrite spans_length by (now rewrite (c_starts ds C), (c_ends ds C)).
  rewrite (c_ends ds C). lia.
Qed.

Lemma table_lookup (j : nat) (v : Z) :
  cumulativeLengths ds !! j = Some v ->
  (j < length (sequences ds))%nat /\ v = prefix ds (S j).
Proof.
  intros Hj. pose proof (lookup_lt_Some _ _ _ Hj) as Hlt.
  rewrite (c_table_length ds C) in Hlt. split; [assumption|].
  rewrite (c_table ds C j Hlt) in Hj. now injection Hj as <-.
Qed.

Lemma first_ge_routes (idx : Z) (n : nat) :
  first_ge (cumulativeLengths ds) idx = Ok (Z.of_nat n) <-> routes_to ds idx n.
Proof.
  unfold first_ge, routes_to. split.
  - intros H. apply first_ge_from_inv in H as (n' & v & Hk & Hn & Hv & Hlow).
    assert (n' = n) as -> by lia.
    apply table_lookup in Hn as [Hlt ->]. repeat split; [assumption..|].
    intros m Hm. apply (Hlow m); [assumption|].
    apply (c_table ds C). lia.
  - intros (Hn & Hv & Hlow).
    rewrite (first_ge_from_found _ idx 0 n (prefix ds (S n)));
      [reflexivity | now apply (c_table ds C) | assumption |].
    intros m u Hm Hu. apply table_lookup in Hu as [_ ->]. now apply Hlow.
Qed.

(** Every index up to the length is routed somewhere. *)
Lemma routes_total (idx : Z) :
  idx <= length_ ds -> exists n, routes_to ds idx n.
Proof.
  intros Hidx.
  destruct (first_ge (cumulativeLengths ds) idx) as [k|e] eqn:Hscan.
  - unfold first_ge in Hscan.
    pose proof Hscan as Hinv.
    apply first_ge_from_inv in Hinv as (n & v & -> & _).
    exists n. now apply first_ge_routes.
  - apply first_ge_from_raise in Hscan as [_ Hall].
    pose proof (c_nonempty ds C) as Hne.
    assert (Hlen : (0 < length (sequences ds))%nat).
    { destruct (sequences ds); [congruence | simpl; lia]. }
    rewrite Forall_lookup in Hall.
    specialize (Hall (length (sequences ds) - 1)%nat
                  (prefix ds (S (length (sequences ds) - 1)))).
    rewrite (c_table ds C) in Hall by lia. specialize (Hall eq_refl).
    replace (S (length (sequences ds) - 1)) with (length (sequences ds))
      in Hall by lia.
    rewrite prefix_all in Hall. lia.
Qed.

(** What the lookup returns once the scan has chosen window [n]. *)
Lemma lookup_run (idx : Z) (n : nat) :
  routes_to ds idx n ->
  exists q s e,
    window (sequences ds) (startFrames ds) (endFrames ds) n = Some (q, s, e) /\
    lookup ds idx
    = Ok {| seqKey := Z.of_nat n; seqIdx := q;
            frame1 := s + (idx - prefix ds n);
            frame2 := s + (idx - prefix ds n) + 1;
            endOfSequence := (s + (idx - prefix ds n) + 1 =? e) |}.
Proof.
  intros Hr. pose proof Hr as (Hn & _).
  apply first_ge_routes in Hr.
  destruct (window_total (sequences ds) (startFrames ds) (endFrames ds) n Hn
              (c_starts ds C) (c_ends ds C)) as (q & s & e & Hw).
  exists q, s, e. split; [assumption|].
  apply window_Some in Hw as (Hq & Hs & He).
  unfold lookup. rewrite Hr. cbn [bind].
  rewrite (py_get_nat _ _ _ Hq). cbn [bind].
  assert (Hoff : (if Z.of_nat n =? 0 then Ok idx
                  else c <- py_get (cumulativeLengths ds) (Z.of_nat n - 1) ;;
                       Ok (idx - c)) = Ok (idx - prefix ds n)).
  { destruct n as [|m].
    - simpl. f_equal. unfold prefix. simpl. lia.
    - replace (Z.of_nat (S m) =? 0) with false
        by (symmetry; apply Z.eqb_neq; lia).
      replace (Z.of_nat (S m) - 1) with (Z.of_nat m) by lia.
      rewrite (py_get_nat _ m (prefix ds (S m))); [reflexivity|].
      apply (c_table ds C). lia. }
  rewrite Hoff. cbn [bind].
  rewrite (py_get_nat _ _ _ Hs). cbn [bind].
  rewrite (py_get_nat _ _ _ He). reflexivity.
Qed.
End Lookup.

(** ** Length and cumulative table *)

(** C3: when the construction succeeds, the start and end lists were given,
    the length [__len__] returns is the sum of [endFrame_i - startFrame_i]
    over all windows, entry [k] of the cumulative table is the sum of the
    spans of windows [0..k], and the last entry of the table is the length. *)
Theorem length_is_sum_of_spans (b : string) (sq st en : option (list Z))
    (p : string) (w h : Z) (ds : KITTIDataset) :
  init b sq st en p w h = Ok ds ->
  exists starts ends,
    st = Some starts /\ en = Some ends /\
    py_len ds = sum_Z (zip_with Z.sub ends starts) /\
    (forall k, (k < length (default [1%Z] sq))%nat ->
       cumulativeLengths ds !! k
       = Some (sum_Z (take (S k) (zip_with Z.sub ends starts)))) /\
    last (cumulativeLengths ds) = Some (py_len ds).
Proof.
  intros H. apply init_ok_inv in H as (Hseqs & Hst & Hen & _ & C).
  exists (startFrames ds), (endFrames ds).
  split; [assumption|]. split; [assumption|].
  split; [apply (c_length ds C)|].
  rewrite <- Hseqs. split; [apply (c_table ds C)|].
  rewrite last_lookup, (c_table_length ds C).
  pose proof (c_nonempty ds C) as Hne.
  assert (Hlen : (0 < length (sequences ds))%nat).
  { destruct (sequences ds); [congruence | simpl; lia]. }
  rewrite (c_table ds C) by lia.
  replace (S (Nat.pred (length (sequences ds)))) with (length (sequences ds))
    by lia.
  unfold py_len. f_equal. apply (prefix_all ds C).
Qed.

Lemma length_is_sum_of_spans_witness :
  two_windows "default" = Ok (two_windows_ds "default") /\
  exists starts ends,
    Some [0; 0] = Some starts /\ Some [3; 2] = Some ends /\
    py_len (two_windows_ds "default") = sum_Z (zip_with Z.sub ends starts) /\
    (forall k, (k < length (default [1%Z] (Some [0%Z; 1%Z])))%nat ->
       cumulativeLengths (two_windows_ds "default") !! k
       = Some (sum_Z (take (S k) (zip_with Z.sub ends starts)))) /\
    last (cumulativeLengths (two_windows_ds "default"))
    = Some (py_len (two_windows_ds "default")).
Proof.
  split; [reflexivity|].
  apply (length_is_sum_of_spans "kitti" (Some [0; 1]) (Some [0; 0])
           (Some [3; 2]) "default" 1280 384).
  reflexivity.
Defined.

(** ** The lookup step *)

(** On a constructed dataset every index up to the length is routed, by the
    scan, to the first window whose cumulative length is at least the index;
    the frames are taken from that window. *)
Lemma lookup_valid_index (ds : KITTIDataset) (idx : Z) :
  constructed ds -> idx <= py_len ds ->
  exists n q s e,
    routes_to ds idx n /\
    window (sequences ds) (startFrames ds) (endFrames ds) n = Some (q, s, e) /\
    lookup ds idx
    = Ok {| seqKey := Z.of_nat n; seqIdx := q;
            frame1 := s + (idx - prefix ds n);
            frame2 := s + (idx - prefix ds n) + 1;
            endOfSequence := (s + (idx - prefix ds n) + 1 =? e) |}.
Proof.
  intros C Hidx. destruct (routes_total ds C idx Hidx) as [n Hr].
  destruct (lookup_run ds C idx n Hr) as (q & s & e & Hw & Hl).
  exists n, q, s, e. auto.
Qed.

(** At the last index of the scan's window [n], [idx = cumulative[n]], the
    offset is the whole span: [frame1] is the end frame of the window and
    [frame2] lies behind it. *)
Lemma lookup_at_window_boundary (ds : KITTIDataset) (n : nat) (q s e : Z) :
  constructed ds ->
  window (sequences ds) (startFrames ds) (endFrames ds) n = Some (q, s, e) ->
  lookup ds (prefix ds (S n))
  = Ok {| seqKey := Z.of_nat n; seqIdx := q; frame1 := e; frame2 := e + 1;
          endOfSequence := false |}.
Proof.
  intros C Hw.
  assert (Hn : (n < length (sequences ds))%nat).
  { apply window_Some in Hw as (Hq & _). eapply lookup_lt_Some, Hq. }
  assert (Hr : routes_to ds (prefix ds (S n)) n).
  { split; [assumption|]. split; [lia|]. intros m Hm.
    pose proof (prefix_mono ds C (S m) n ltac:(lia)).
    pose proof (prefix_strict ds C n Hn). lia. }
  destruct (lookup_run ds C _ n Hr) as (q' & s' & e' & Hw' & Hl).
  rewrite Hw in Hw'. injection Hw' as <- <- <-. rewrite Hl.
  assert (Hspan : prefix ds (S n) = prefix ds n + (e - s)).
  { unfold prefix. apply sum_Z_take_S.
    apply (span_lookup (sequences ds) _ _ n q), Hw. }
  replace (s + (prefix ds (S n) - prefix ds n)) with e by lia.
  f_equal. f_equal. apply Z.eqb_neq. lia.
Qed.

(** For [0 <= idx < length] the lookup returns, [frame2] is [frame1 + 1],
    and the flag is set exactly when [frame2] is the end frame of the window
    of the key [first_ge] returned. *)
Lemma lookup_flag_of_routed_window (b : string) (sq st en : option (list Z))
    (p : string) (w h : Z) (ds : KITTIDataset) (idx : Z) :
  init b sq st en p w h = Ok ds ->
  0 <= idx < py_len ds ->
  exists lk e,
    lookup ds idx = Ok lk /\
    first_ge (cumulativeLengths ds) idx = Ok (seqKey lk) /\
    py_get (endFrames ds) (seqKey lk) = Ok e /\
    frame2 lk = frame1 lk + 1 /\
    (endOfSequence lk = true <-> frame2 lk = e).
Proof.
  intros H Hidx. apply init_constructed in H as C.
  destruct (lookup_valid_index ds idx C) as (n & q & s & e & Hr & Hw & Hl);
    [lia|].
  eexists; exists e. split; [exact Hl|]. simpl.
  split; [now apply first_ge_routes|].
  apply window_Some in Hw as (_ & _ & He).
  split; [now apply py_get_nat|]. split; [reflexivity|].
  apply Z.eqb_eq.
Qed.

(** C2: on the two-window configuration (seq0, 0, 3), (seq1, 0, 4), whose
    cumulative table is [3; 7], index 3 belongs to window 1, the first
    window whose cumulative length exceeds 3; the lookup returns
    [frame2 = 4 = frame1 + 1], which is the end frame of that window, with
    the end-of-sequence flag not set: the flag was taken from window 0,
    where the scan had routed the index. *)
Theorem end_flag_misses_owning_window :
  three_four = Ok three_four_ds /\
  0 <= 3 < py_len three_four_ds /\
  lookup three_four_ds 3
  = Ok {| seqKey := 0; seqIdx := 0; frame1 := 3; frame2 := 4;
          endOfSequence := false |} /\
  spec_owner (cumulativeLengths three_four_ds) 3 = Ok 1 /\
  py_get (endFrames three_four_ds) 1 = Ok 4.
Proof.
  split; [reflexivity|]. split; [unfold py_len; simpl; lia|].
  repeat split; reflexivity.
Qed.

(** C1: on the two-window configuration (seq0, 0, 3), (seq1, 0, 2), whose
    cumulative table is [3; 5], the lookup of index 3 stays in window 0 and
    returns frames 3 and 4 of sequence 0, although window 1 is the first
    whose cumulative length exceeds 3; index 2 gives (seq0, 2, 3, True). *)
Theorem lookup_boundary_index_two_windows :
  two_windows "default" = Ok (two_windows_ds "default") /\
  cumulativeLengths (two_windows_ds "default") = [3; 5] /\
  py_len (two_windows_ds "default") = 5 /\
  lookup (two_windows_ds "default") 3
  = Ok {| seqKey := 0; seqIdx := 0; frame1 := 3; frame2 := 4;
          endOfSequence := false |} /\
  lookup (two_windows_ds "default") 3
  <> Ok {| seqKey := 1; seqIdx := 1; frame1 := 0; frame2 := 1;
           endOfSequence := false |} /\
  lookup (two_windows_ds "default") 2
  = Ok {| seqKey := 0; seqIdx := 0; frame1 := 2; frame2 := 3;
          endOfSequence := true |}.
Proof. repeat split; try reflexivity. discriminate. Qed.

(** ** Running [__getitem__] *)

Section GetItemFacts.
Context {E : Externals}.

Lemma getitem_run (ds : KITTIDataset) (idx : Z) (lk : FrameLookup)
    (input : Tensor) (pose1 pose2 inv1 : Mat4 Scalar) :
  reads ds idx lk input pose1 pose2 inv1 ->
  getitem ds idx
  = (code <- encode (parameterization ds)
               (rot_block (np_dot inv1 pose2))
               (map3 to_float32 (trans_col (np_dot inv1 pose2))) pose2 ;;
     Ok (sample_of lk input <$> code)).
Proof.
  intros (Hl & Hin & (poses & Hp & Hp1 & Hp2) & Hinv).
  unfold getitem, relative_pose, relative.
  rewrite Hl; cbn [bind]. rewrite Hin; cbn [bind]. rewrite Hp; cbn [bind].
  rewrite Hp1; cbn [bind]. rewrite Hp2; cbn [bind]. rewrite Hinv.
  cbn [bind fst snd].
  destruct (encode _ _ _ _) as [[[rot t]|]|]; reflexivity.
Qed.

Lemma getitem_lookup_raise (ds : KITTIDataset) (idx : Z) (e : exn) :
  lookup ds idx = Raise e -> getitem ds idx = Raise e.
Proof. intros H. unfold getitem. now rewrite H. Qed.

Lemma encode_unrecognized (tag : string) (R : Mat3 Scalar) (t : Vec3 Scalar)
    (pose2 : Mat4 Scalar) :
  recognized tag = false -> encode tag R t pose2 = Ok None.
Proof.
  unfold recognized, encode. intros H.
  destruct (String.eqb tag "default"); [discriminate|].
  destruct (String.eqb tag "quaternion"); [discriminate|].
  destruct (String.eqb tag "euler"); [discriminate|].
  destruct (String.eqb tag "se3"); [discriminate | reflexivity].
Qed.

(** [seq] is not a keyword of [tr2eul]: the call of the euler branch raises. *)
Lemma encode_euler (R : Mat3 Scalar) (t : Vec3 Scalar) (pose2 : Mat4 Scalar) :
  encode "euler" R t pose2 = Raise TypeError.
Proof. reflexivity. Qed.

(** With a tag outside the four, no branch of [__getitem__] is taken. *)
Lemma getitem_unrecognized_tag (ds : KITTIDataset) (idx : Z)
    (lk : FrameLookup) (input : Tensor) (pose1 pose2 inv1 : Mat4 Scalar) :
  recognized (parameterization ds) = false ->
  reads ds idx lk input pose1 pose2 inv1 ->
  getitem ds idx = Ok None.
Proof.
  intros Hp Hr. rewrite (getitem_run _ _ _ _ _ _ _ Hr).
  now rewrite encode_unrecognized.
Qed.

(** C4: with the poses of [frame1] and [frame2] loaded and [pose1]
    inverted, [get] works on [M = inv(pose1) . pose2]: its relative
    rotation is the upper left 3 x 3 block of [M], entry by entry, and its
    relative translation the first three entries of the last column of [M]
    (as float32); under the default and quaternion tags the sample returned
    holds the encoding of that rotation and that translation. *)
Theorem relative_pose_in_getitem (ds : KITTIDataset) (idx : Z)
    (lk : FrameLookup) (input : Tensor) (pose1 pose2 inv1 : Mat4 Scalar)
    (a0 a1 a2 t0 b0 b1 b2 t1 c0 c1 c2 t2 : Scalar) (last : Vec4 Scalar) :
  reads ds idx lk input pose1 pose2 inv1 ->
  np_dot inv1 pose2
  = ((a0, a1, a2, t0), (b0, b1, b2, t1), (c0, c1, c2, t2), last) ->
  let R : Mat3 Scalar := ((a0, a1, a2), (b0, b1, b2), (c0, c1, c2)) in
  let t : Vec3 Scalar := (to_float32 t0, to_float32 t1, to_float32 t2) in
  relative_pose pose1 pose2 = Ok (R, t) /\
  (forall rx ry rz,
     parameterization ds = "default"%string -> tr2rpy R = (rx, ry, rz) ->
     getitem ds idx
     = Ok (Some {| inputTensor := input;
                   rotation := [to_float32 rx; to_float32 ry; to_float32 rz];
                   translation := t;
                   sample_seqIdx := seqIdx lk; sample_frame1 := frame1 lk;
                   sample_frame2 := frame2 lk;
                   sample_endOfSequence := endOfSequence lk |})) /\
  (forall qw qx qy qz,
     parameterization ds = "quaternion"%string -> r2q R = (qw, qx, qy, qz) ->
     getitem ds idx
     = Ok (Some {| inputTensor := input;
                   rotation := [to_float32 qw; to_float32 qx; to_float32 qy;
                                to_float32 qz];
                   translation := t;
                   sample_seqIdx := seqIdx lk; sample_frame1 := frame1 lk;
                   sample_frame2 := frame2 lk;
                   sample_endOfSequence := endOfSequence lk |})).
Proof.
  intros Hr HM R t. subst R t. split; [|split].
  - destruct Hr as (_ & _ & _ & Hinv).
    unfold relative_pose, relative. rewrite Hinv. cbn [bind]. now rewrite HM.
  - intros rx ry rz Htag Hrpy.
    rewrite (getitem_run _ _ _ _ _ _ _ Hr), Htag, HM. unfold encode. simpl.
    match goal with
    | |- context [tr2rpy ?m] =>
        replace (tr2rpy m) with (rx, ry, rz) by (symmetry; exact Hrpy)
    end. reflexivity.
  - intros qw qx qy qz Htag Hq.
    rewrite (getitem_run _ _ _ _ _ _ _ Hr), Htag, HM. unfold encode. simpl.
    match goal with
    | |- context [r2q ?m] =>
        replace (r2q m) with (qw, qx, qy, qz) by (symmetry; exact Hq)
    end. reflexivity.
Qed.

(** C5: under the se3 tag the sample holds the quaternion of the upper
    left 3 x 3 block of the absolute pose of [frame2] and the first three
    entries of its last column, whatever the relative pose; under the
    default and quaternion tags it holds the encoding of the relative
    rotation and the relative translation; under the euler tag the call
    [tr2eul(R, seq='xyz')] raises and nothing is encoded. *)
Theorem parameterization_branches (ds : KITTIDataset) (idx : Z)
    (lk : FrameLookup) (input : Tensor) (pose1 pose2 inv1 : Mat4 Scalar)
    (p00 p01 p02 p03 p10 p11 p12 p13 p20 p21 p22 p23 : Scalar)
    (plast : Vec4 Scalar)
    (a0 a1 a2 t0 b0 b1 b2 t1 c0 c1 c2 t2 : Scalar) (last : Vec4 Scalar) :
  reads ds idx lk input pose1 pose2 inv1 ->
  pose2 = ((p00, p01, p02, p03), (p10, p11, p12, p13), (p20, p21, p22, p23),
           plast) ->
  np_dot inv1 pose2
  = ((a0, a1, a2, t0), (b0, b1, b2, t1), (c0, c1, c2, t2), last) ->
  let absolute : Mat3 Scalar :=
    ((p00, p01, p02), (p10, p11, p12), (p20, p21, p22)) in
  let R : Mat3 Scalar := ((a0, a1, a2), (b0, b1, b2), (c0, c1, c2)) in
  (forall qw qx qy qz,
     parameterization ds = "se3"%string -> r2q absolute = (qw, qx, qy, qz) ->
     getitem ds idx
     = Ok (Some {| inputTensor := input;
                   rotation := [to_float32 qw; to_float32 qx; to_float32 qy;
                                to_float32 qz];
                   translation :=
                     (to_float32 p03, to_float32 p13, to_float32 p23);
                   sample_seqIdx := seqIdx lk; sample_frame1 := frame1 lk;
                   sample_frame2 := frame2 lk;
                   sample_endOfSequence := endOfSequence lk |})) /\
  (forall rx ry rz,
     parameterization ds = "default"%string -> tr2rpy R = (rx, ry, rz) ->
     getitem ds idx
     = Ok (Some {| inputTensor := input;
                   rotation := [to_float32 rx; to_float32 ry; to_float32 rz];
                   translation :=
                     (to_float32 t0, to_float32 t1, to_float32 t2);
                   sample_seqIdx := seqIdx lk; sample_frame1 := frame1 lk;
                   sample_frame2 := frame2 lk;
                   sample_endOfSequence := endOfSequence lk |})) /\
  (forall qw qx qy qz,
     parameterization ds = "quaternion"%string -> r2q R = (qw, qx, qy, qz) ->
     getitem ds idx
     = Ok (Some {| inputTensor := input;
                   rotation := [to_float32 qw; to_float32 qx; to_float32 qy;
                                to_float32 qz];
                   translation :=
                     (to_float32 t0, to_float32 t1, to_float32 t2);
                   sample_seqIdx := seqIdx lk; sample_frame1 := frame1 lk;
                   sample_frame2 := frame2 lk;
                   sample_endOfSequence := endOfSequence lk |})) /\
  (parameterization ds = "euler"%string -> getitem ds idx = Raise TypeError).
Proof.
  intros Hr Hp HM absolute R. subst absolute R.
  rewrite (getitem_run _ _ _ _ _ _ _ Hr), HM.
  split; [|split; [|split]].
  - intros qw qx qy qz Htag Hq. rewrite Htag, Hp. unfold encode. simpl.
    match goal with
    | |- context [r2q ?m] =>
        replace (r2q m) with (qw, qx, qy, qz) by (symmetry; exact Hq)
    end. reflexivity.
  - intros rx ry rz Htag Hrpy. rewrite Htag. unfold encode. simpl.
    match goal with
    | |- context [tr2rpy ?m] =>
        replace (tr2rpy m) with (rx, ry, rz) by (symmetry; exact Hrpy)
    end. reflexivity.
  - intros qw qx qy qz Htag Hq. rewrite Htag. unfold encode. simpl.
    match goal with
    | |- context [r2q ?m] =>
        replace (r2q m) with (qw, qx, qy, qz) by (symmetry; exact Hq)
    end. reflexivity.
  - intros Htag. rewrite Htag. now rewrite encode_euler.
Qed.

(** C6: under the euler tag no rotation vector is returned: when the
    lookup, the reads and the inversion have succeeded, the call
    [tr2eul(R, seq='xyz')] ends [get] in a [TypeError], before the factor
    10 is applied. *)
Theorem euler_call_raises_type_error (ds : KITTIDataset) (idx : Z)
    (lk : FrameLookup) (input : Tensor) (pose1 pose2 inv1 : Mat4 Scalar) :
  reads ds idx lk input pose1 pose2 inv1 ->
  parameterization ds = "euler"%string ->
  getitem ds idx = Raise TypeError.
Proof.
  intros Hr Htag. rewrite (getitem_run _ _ _ _ _ _ _ Hr), Htag.
  now rewrite encode_euler.
Qed.
End GetItemFacts.

Lemma relative_pose_in_getitem_witness :
  reads (E := IntWorld.world) (two_windows_ds "default") 1 lookup_1 (0, 1, 2)
    pose_1 pose_2 inverse_1 /\
  IntWorld.mul inverse_1 pose_2
  = ((0, 1, 0, 0), (-1, 0, 0, 0), (0, 0, 1, 1), (0, 0, 0, 1)) /\
  relative_pose (E := IntWorld.world) pose_1 pose_2
  = Ok (((0, 1, 0), (-1, 0, 0), (0, 0, 1)), (0, 0, 1)).
Proof.
  split; [reads_by_evaluation|]. split; [reflexivity|].
  apply (relative_pose_in_getitem (E := IntWorld.world)
           (two_windows_ds "default") 1 lookup_1 (0, 1, 2)
           pose_1 pose_2 inverse_1
           0 1 0 0 (-1) 0 0 0 0 0 1 1 (0, 0, 0, 1));
    [reads_by_evaluation | reflexivity].
Defined.

Lemma parameterization_branches_witness :
  reads (E := IntWorld.world) (two_windows_ds "se3") 1 lookup_1 (0, 1, 2)
    pose_1 pose_2 inverse_1 /\
  getitem (E := IntWorld.world) (two_windows_ds "se3") 1
  = Ok (Some (@Build_Sample IntWorld.world (0, 1, 2) [4; 0; 0; 0] (0, 0, 2)
                0 1 2 false)).
Proof.
  split; [reads_by_evaluation|].
  apply (parameterization_branches (E := IntWorld.world)
           (two_windows_ds "se3") 1 lookup_1 (0, 1, 2)
           pose_1 pose_2 inverse_1
           1 0 0 0 0 1 0 0 0 0 1 2 (0, 0, 0, 1)
           0 1 0 0 (-1) 0 0 0 0 0 1 1 (0, 0, 0, 1));
    [reads_by_evaluation | reflexivity | reflexivity | reflexivity
     | reflexivity].
Defined.

Lemma euler_call_raises_type_error_witness :
  reads (E := IntWorld.world) (two_windows_ds "euler") 1 lookup_1 (0, 1, 2)
    pose_1 pose_2 inverse_1 /\
  parameterization (two_windows_ds "euler") = "euler"%string /\
  getitem (E := IntWorld.world) (two_windows_ds "euler") 1 = Raise TypeError.
Proof.
  split; [reads_by_evaluation|]. split; [reflexivity|].
  apply (euler_call_raises_type_error (E := IntWorld.world)
           (two_windows_ds "euler") 1 lookup_1 (0, 1, 2)
           pose_1 pose_2 inverse_1);
    [reads_by_evaluation | reflexivity].
Defined.

Example default_sample_two_windows :
  getitem (E := IntWorld.world) (two_windows_ds "default") 1
  = Ok (Some (@Build_Sample IntWorld.world (0, 1, 2) [0; 0; -1] (0, 0, 1)
                0 1 2 false)).
Proof. reflexivity. Qed.

(** ** The parameterization tag *)

(** C8, as the code has it: an unrecognized tag passes the construction
    and reaches [get], which returns no sample. *)
Lemma unrecognized_tag_is_constructed :
  recognized "axis" = false /\
  two_windows "axis" = Ok (two_windows_ds "axis") /\
  is_value_error (two_windows "axis") = false /\
  getitem (E := IntWorld.world) (two_windows_ds "axis") 1 = Ok None.
Proof. repeat split; reflexivity. Qed.

(** C8, amended: the construction does not look at the tag; it succeeds
    or fails as with any other tag and stores the tag given, recognized or
    not, so that the tag is first compared in [get]. *)
Theorem tag_is_not_checked_at_construction (b : string)
    (sq st en : option (list Z)) (p : string) (w h : Z) :
  (forall p' : string,
     init b sq st en p w h
     = (ds <- init b sq st en p' w h ;; Ok (with_tag p ds))) /\
  (forall p' : string,
     is_ok (init b sq st en p w h) = is_ok (init b sq st en p' w h)) /\
  (forall ds : KITTIDataset,
     init b sq st en p w h = Ok ds -> parameterization ds = p).
Proof.
  split; [intros p'; apply init_tag|]. split.
  - intros p'. rewrite (init_tag b sq st en p p').
    now destruct (init b sq st en p' w h).
  - intros ds Hinit. now apply init_ok_inv in Hinit.
Qed.

Lemma tag_is_not_checked_at_construction_witness :
  two_windows "axis" = Ok (two_windows_ds "axis") /\
  recognized "axis" = false /\
  parameterization (two_windows_ds "axis") = "axis"%string.
Proof.
  split; [reflexivity|]. split; [reflexivity|].
  apply (tag_is_not_checked_at_construction "kitti" (Some [0; 1])
           (Some [0; 0]) (Some [3; 2]) "axis" 1280 384).
  reflexivity.
Defined.

(** ** Indices outside [0, length) *)

Lemma lookup_above_length (ds : KITTIDataset) (idx : Z) :
  constructed ds -> py_len ds < idx -> lookup ds idx = Raise OutOfRangeError.
Proof.
  intros C Hidx. unfold lookup, first_ge.
  rewrite first_ge_from_none; [reflexivity|].
  apply Forall_lookup. intros j v Hj.
  apply (table_lookup ds C) in Hj as [Hlt ->].
  pose proof (prefix_mono ds C (S j) (length (sequences ds)) ltac:(lia)) as Hm.
  pose proof (prefix_all ds C) as Hall. unfold py_len in Hidx. lia.
Qed.

Lemma lookup_negative (ds : KITTIDataset) (idx : Z) :
  constructed ds -> idx < 0 ->
  exists q s e,
    window (sequences ds) (startFrames ds) (endFrames ds) 0 = Some (q, s, e) /\
    lookup ds idx
    = Ok {| seqKey := 0; seqIdx := q; frame1 := s + idx;
            frame2 := s + idx + 1; endOfSequence := (s + idx + 1 =? e) |}.
Proof.
  intros C Hidx.
  assert (Hlen : (0 < length (sequences ds))%nat).
  { pose proof (c_nonempty ds C). destruct (sequences ds);
      [congruence | simpl; lia]. }
  assert (Hr : routes_to ds idx 0).
  { split; [assumption|]. split; [|intros; lia].
    pose proof (prefix_strict ds C 0 Hlen) as H.
    change (prefix ds 0) with 0 in H. lia. }
  destruct (lookup_run ds C idx 0 Hr) as (q & s & e & Hw & Hl).
  exists q, s, e. split; [assumption|].
  rewrite Hl. change (prefix ds 0) with 0. now rewrite Z.sub_0_r.
Qed.

(** C9, as the code has it: index -1 is outside [0, length) of the dataset
    with the one window (seq0, 2, 5), and [get(-1)] returns the sample of
    frames 1 and 2. *)
Lemma get_returns_sample_at_negative_index :
  late_window = Ok late_window_ds /\
  ~ (0 <= -1 < py_len late_window_ds) /\
  getitem (E := IntWorld.world) late_window_ds (-1)
  = Ok (Some (@Build_Sample IntWorld.world (0, 1, 2) [0; 0; -1] (0, 0, 1)
                0 1 2 false)).
Proof. split; [reflexivity|]. split; [lia | reflexivity]. Qed.

(** C9, amended: on a constructed dataset [get(idx)] fails with the
    out-of-range error for every [idx > length]; a negative [idx] is not
    rejected, the lookup routes it to window 0 with offset [idx]. *)
Theorem get_rejects_index_above_length (b : string)
    (sq st en : option (list Z)) (p : string) (w h : Z) (ds : KITTIDataset) :
  init b sq st en p w h = Ok ds ->
  (forall idx, py_len ds < idx ->
     lookup ds idx = Raise OutOfRangeError /\
     forall E : Externals, getitem ds idx = Raise OutOfRangeError) /\
  (forall idx, idx < 0 ->
     exists q s e,
       window (sequences ds) (startFrames ds) (endFrames ds) 0 = Some (q, s, e) /\
       lookup ds idx
       = Ok {| seqKey := 0; seqIdx := q; frame1 := s + idx;
               frame2 := s + idx + 1; endOfSequence := (s + idx + 1 =? e) |}).
Proof.
  intros H. apply init_constructed in H as C. split.
  - intros idx Hidx. pose proof (lookup_above_length ds idx C Hidx) as Hl.
    split; [assumption|]. intros E. now apply getitem_lookup_raise.
  - intros idx Hidx. now apply lookup_negative.
Qed.

Lemma get_rejects_index_above_length_witness :
  late_window = Ok late_window_ds /\
  py_len late_window_ds < 4 /\
  lookup late_window_ds 4 = Raise OutOfRangeError /\
  getitem (E := IntWorld.world) late_window_ds 4 = Raise OutOfRangeError.
Proof.
  split; [reflexivity|].
  assert (Hlt : py_len late_window_ds < 4) by (unfold py_len; simpl; lia).
  split; [exact Hlt|].
  destruct (get_rejects_index_above_length "kitti" (Some [0]) (Some [2])
              (Some [5]) "default" 1280 384 late_window_ds eq_refl)
    as [Habove _].
  destruct (Habove 4 Hlt) as [Hl Hg]. split; [exact Hl | apply Hg].
Defined.

(** ** Rejected configurations *)

(** The windows below [i] all keep the invariant, or one of them breaks it. *)
Lemma windows_good_or_bad (seqs starts ends : list Z) (i : nat) :
  (forall j q s e, (j < i)%nat ->
     window seqs starts ends j = Some (q, s, e) -> window_ok q s e = true) \/
  (exists j q s e, (j < i)%nat /\
     window seqs starts ends j = Some (q, s, e) /\ window_ok q s e = false).
Proof.
  induction i as [|i [IH | (j & q & s & e & Hj & Hw & Hbad)]].
  - left. intros; lia.
  - destruct (window seqs starts ends i) as [[[q s] e]|] eqn:Hw.
    + destruct (window_ok q s e) eqn:Hok.
      * left. intros j q' s' e' Hj Hw'.
        destruct (decide (j = i)) as [-> | Hne]; [congruence|].
        apply (IH j q' s' e'); [lia | assumption].
      * right. exists i, q, s, e. auto.
    + left. intros j q' s' e' Hj Hw'.
      destruct (decide (j = i)) as [-> | Hne]; [congruence|].
      apply (IH j q' s' e'); [lia | assumption].
  - right. exists j, q, s, e. auto.
Qed.

(** Among the windows up to a bad one there is a first bad one. *)
Lemma first_bad_window (seqs starts ends : list Z) (i : nat) (q s e : Z) :
  window seqs starts ends i = Some (q, s, e) -> window_ok q s e = false ->
  exists i' q' s' e',
    window seqs starts ends i' = Some (q', s', e') /\
    window_ok q' s' e' = false /\
    forall j q s e, (j < i')%nat ->
      window seqs starts ends j = Some (q, s, e) -> window_ok q s e = true.
Proof.
  revert q s e. induction i as [i IH] using lt_wf_ind. intros q s e Hw Hbad.
  destruct (windows_good_or_bad seqs starts ends i)
    as [Hgood | (j & q' & s' & e' & Hj & Hw' & Hbad')].
  - exists i, q, s, e. auto.
  - apply (IH j Hj q' s' e' Hw' Hbad').
Qed.

(** The parameters are the attributes when given, and a missing start or
    end list leaves a single window. *)
Lemma raw_lists_given (sq st en : option (list Z)) (i : nat) :
  length (default [0] st) = length (default [1] sq) ->
  length (default [1100] en) = length (default [1] sq) ->
  (i < length (default [1%Z] sq))%nat -> (0 < i)%nat ->
  st = Some (default [0] st) /\ en = Some (default [1100] en).
Proof.
  intros Hs He Hi Hpos.
  destruct st as [starts|]; [|simpl in Hs; lia].
  destruct en as [ends|]; [|simpl in He; lia].
  auto.
Qed.

Section Rejections.
Variables (b : string) (sq st en : option (list Z)) (p : string) (w h : Z).

Let seqs := default [1] sq.
Let starts := default [0] st.
Let ends := default [1100] en.

Lemma init_out_of_range :
  Exists (fun q => seq_in_range q = false) seqs ->
  init b sq st en p w h = Raise (ValueError SequencesOutOfRange).
Proof.
  intros Hex. unfold init. fold seqs.
  now rewrite (range_check_fail seqs Hex).
Qed.

Lemma init_start_count :
  seqs <> [] -> Forall (fun q => seq_in_range q = true) seqs ->
  length starts <> length seqs ->
  init b sq st en p w h = Raise (ValueError NotEnoughStartFrames).
Proof.
  intros Hne Hall Hlen. unfold init. fold seqs starts.
  rewrite (range_check_pass seqs Hne Hall). cbn [bind]. unfold len.
  replace (Z.of_nat (length seqs) =? Z.of_nat (length starts)) with false
    by (symmetry; apply Z.eqb_neq; lia).
  reflexivity.
Qed.

Lemma init_end_count :
  seqs <> [] -> Forall (fun q => seq_in_range q = true) seqs ->
  length starts = length seqs -> length ends <> length seqs ->
  init b sq st en p w h = Raise (ValueError NotEnoughEndFrames).
Proof.
  intros Hne Hall Hs Hlen. unfold init. fold seqs starts ends.
  rewrite (range_check_pass seqs Hne Hall). cbn [bind]. unfold len.
  rewrite Hs, Z.eqb_refl.
  replace (Z.of_nat (length seqs) =? Z.of_nat (length ends)) with false
    by (symmetry; apply Z.eqb_neq; lia).
  reflexivity.
Qed.

Lemma init_first_bad_window (i : nat) (q s e : Z) :
  Forall (fun q => seq_in_range q = true) seqs ->
  length starts = length seqs -> length ends = length seqs ->
  window seqs starts ends i = Some (q, s, e) -> window_ok q s e = false ->
  (forall j q' s' e', (j < i)%nat ->
     window seqs starts ends j = Some (q', s', e') ->
     window_ok q' s' e' = true) ->
  init b sq st en p w h
  = Raise (ValueError (if start_ok q s then InvalidEndFrame q
                       else InvalidStartFrame q)).
Proof.
  intros Hall Hs He Hw Hbad Hfirst.
  assert (Hi : (i < length seqs)%nat).
  { apply window_Some in Hw as (Hq & _). eapply lookup_lt_Some, Hq. }
  assert (Hne : seqs <> []) by (intros Heq; rewrite Heq in Hi; simpl in Hi; lia).
  unfold init. fold seqs starts ends.
  rewrite (range_check_pass seqs Hne Hall). cbn [bind]. unfold len.
  rewrite Hs, He, Z.eqb_refl. cbn [negb].
  rewrite (loop_first_bad seqs starts ends st en Hall Hs He _
             (length_replicate _ _) i q s e Hw Hbad); [reflexivity | | assumption].
  intros Hpos. now apply (raw_lists_given sq st en i).
Qed.

(** Any of the violations ends the construction in a [ValueError]. *)
Lemma init_violation :
  Exists (fun q => seq_in_range q = false) seqs \/
  length starts <> length seqs \/ length ends <> length seqs \/
  (exists i q s e, window seqs starts ends i = Some (q, s, e) /\
                   window_ok q s e = false) ->
  is_value_error (init b sq st en p w h) = true.
Proof.
  intros Hv.
  destruct (decide (seqs = [])) as [Hnil | Hne].
  { unfold init. fold seqs. rewrite Hnil. reflexivity. }
  destruct (decide (Forall (fun q => seq_in_range q = true) seqs))
    as [Hall | Hnot].
  2:{ rewrite init_out_of_range; [reflexivity|].
      apply not_Forall_Exists in Hnot; [|intros q; apply _].
      apply Exists_exists in Hnot as (q & Hq & Hbad).
      apply Exists_exists. exists q. split; [assumption|].
      now apply not_true_is_false. }
  destruct (decide (length starts = length seqs)) as [Hs | Hs].
  2:{ now rewrite init_start_count. }
  destruct (decide (length ends = length seqs)) as [He | He].
  2:{ now rewrite init_end_count. }
  destruct Hv as [Hex | [Hv | [Hv | (i & q & s & e & Hw & Hbad)]]];
    [|congruence..|].
  { apply Exists_exists in Hex as (q & Hq & Hbad).
    rewrite Forall_forall in Hall. rewrite (Hall q Hq) in Hbad. discriminate. }
  destruct (first_bad_window seqs starts ends i q s e Hw Hbad)
    as (i' & q' & s' & e' & Hw' & Hbad' & Hfirst).
  rewrite (init_first_bad_window i' q' s' e'); auto.
Qed.
End Rejections.

(** C7: the construction fails with a [ValueError] of its own for a
    sequence id outside [0, 10], for a start or end list whose length is
    not that of the sequence list, and for a window with
    [endFrame <= startFrame] or a frame outside [0, maxFrame]: whenever one
    of these holds the construction ends in a [ValueError], and the error is
    the one of the first check, in the order of [__init__], that fails. *)
Theorem init_rejects_invalid_configuration (b : string)
    (sq st en : option (list Z)) (p : string) (w h : Z) :
  let seqs := default [1] sq in
  let starts := default [0] st in
  let ends := default [1100] en in
  (Exists (fun q => seq_in_range q = false) seqs \/
   length starts <> length seqs \/ length ends <> length seqs \/
   (exists i q s e, window seqs starts ends i = Some (q, s, e) /\
                    window_ok q s e = false) ->
   is_value_error (init b sq st en p w h) = true) /\
  (Exists (fun q => seq_in_range q = false) seqs ->
   init b sq st en p w h = Raise (ValueError SequencesOutOfRange)) /\
  (seqs <> [] -> Forall (fun q => seq_in_range q = true) seqs ->
   length starts <> length seqs ->
   init b sq st en p w h = Raise (ValueError NotEnoughStartFrames)) /\
  (seqs <> [] -> Forall (fun q => seq_in_range q = true) seqs ->
   length starts = length seqs -> length ends <> length seqs ->
   init b sq st en p w h = Raise (ValueError NotEnoughEndFrames)) /\
  (forall i q s e,
     Forall (fun q => seq_in_range q = true) seqs ->
     length starts = length seqs -> length ends = length seqs ->
     window seqs starts ends i = Some (q, s, e) -> window_ok q s e = false ->
     (forall j q' s' e', (j < i)%nat ->
        window seqs starts ends j = Some (q', s', e') ->
        window_ok q' s' e' = true) ->
     init b sq st en p w h
     = Raise (ValueError (if start_ok q s then InvalidEndFrame q
                          else InvalidStartFrame q))).
Proof.
  intros seqs starts ends.
  split; [apply init_violation|].
  split; [apply init_out_of_range|].
  split; [apply init_start_count|].
  split; [apply init_end_count|].
  intros i q s e. apply init_first_bad_window.
Qed.

Lemma init_rejects_invalid_configuration_witness :
  init "kitti" (Some [11]) (Some [0]) (Some [5]) "default" 1280 384
  = Raise (ValueError SequencesOutOfRange) /\
  init "kitti" (Some [0; 1]) (Some [0]) (Some [3; 2]) "default" 1280 384
  = Raise (ValueError NotEnoughStartFrames) /\
  init "kitti" (Some [0; 1]) (Some [0; 0]) (Some [3]) "default" 1280 384
  = Raise (ValueError NotEnoughEndFrames) /\
  init "kitti" (Some [0; 4]) (Some [0; 7]) (Some [3; 7]) "default" 1280 384
  = Raise (ValueError (InvalidEndFrame 4)) /\
  init "kitti" (Some [4]) (Some [271]) (Some [272]) "default" 1280 384
  = Raise (ValueError (InvalidStartFrame 4)).
Proof.
  split.
  { apply (init_rejects_invalid_configuration "kitti" (Some [11]) (Some [0])
             (Some [5]) "default" 1280 384).
    apply Exists_cons_hd. reflexivity. }
  split.
  { apply (init_rejects_invalid_configuration "kitti" (Some [0; 1]) (Some [0])
             (Some [3; 2]) "default" 1280 384).
    - discriminate.
    - repeat constructor.
    - simpl. lia. }
  split.
  { apply (init_rejects_invalid_configuration "kitti" (Some [0; 1])
             (Some [0; 0]) (Some [3]) "default" 1280 384).
    - discriminate.
    - repeat constructor.
    - reflexivity.
    - simpl. lia. }
  split.
  { apply (proj2 (proj2 (proj2 (proj2
             (init_rejects_invalid_configuration "kitti" (Some [0; 4])
                (Some [0; 7]) (Some [3; 7]) "default" 1280 384))))
             1%nat 4 7 7).
    - repeat constructor.
    - reflexivity.
    - reflexivity.
    - reflexivity.
    - reflexivity.
    - intros j q s e Hj Hw. assert (j = 0%nat) as -> by lia.
      injection Hw as <- <- <-. reflexivity. }
  apply (proj2 (proj2 (proj2 (proj2
           (init_rejects_invalid_configuration "kitti" (Some [4])
              (Some [271]) (Some [272]) "default" 1280 384))))
           0%nat 4 271 272).
  - repeat constructor.
  - reflexivity.
  - reflexivity.
  - reflexivity.
  - reflexivity.
  - intros j q s e Hj. lia.
Defined.

(** ** Omitted frame lists *)

Lemma value_error_not_ok {A : Type} (r : result A) :
  is_value_error r = true -> is_ok r = false /\ is_type_error r = false.
Proof. destruct r as [a|[]]; simpl; try discriminate; auto. Qed.

Lemma default_window_ok (q : Z) :
  seq_in_range q = true ->
  window_ok q 0 1100 = true <-> 1100 <= max_frame q.
Proof.
  intros Hq. unfold window_ok, start_ok, end_ok. split; intros H; lia.
Qed.

(** With both lists omitted and the one default window within its
    sequence, the accumulation subscripts [None]. *)
Lemma init_default_window_type_error (b : string) (sq : option (list Z))
    (p : string) (w h : Z) (q : Z) :
  default [1] sq = [q] -> seq_in_range q = true -> 1100 <= max_frame q ->
  init b sq None None p w h = Raise TypeError.
Proof.
  intros Hseqs Hq Hmax. unfold init. rewrite Hseqs.
  rewrite range_check_pass; [|discriminate | repeat constructor; assumption].
  cbn [bind default length len negb Z.of_nat]. simpl (_ =? _).
  cbn [negb py_range seq map for_each].
  change (Z.of_nat 0) with (Z.of_nat 0%nat).
  rewrite (body_good [q] [0] [1100] None None 0 q 0 1100);
    [reflexivity | reflexivity | assumption | now apply default_window_ok].
Qed.

(** C10, as the code has it: with sequence 3, which has 800 frames, the
    omitted lists end the construction in the [ValueError] of the end-frame
    check, not in a [TypeError]. *)
Lemma init_without_frame_lists_short_sequence :
  init "kitti" (Some [3]) None None "default" 1280 384
  = Raise (ValueError (InvalidEndFrame 3)) /\
  is_type_error (init "kitti" (Some [3]) None None "default" 1280 384) = false.
Proof. split; reflexivity. Qed.

(** C10, amended: a construction that omits both frame lists never
    succeeds; it ends in a [TypeError] exactly when the sequence list (given
    or defaulted) is a single id of the table whose sequence has at least
    1100 frames, and in a [ValueError] otherwise. *)
Theorem init_without_frame_lists_fails (b : string) (sq : option (list Z))
    (p : string) (w h : Z) :
  is_ok (init b sq None None p w h) = false /\
  (is_type_error (init b sq None None p w h) = true <->
   exists q, default [1] sq = [q] /\ seq_in_range q = true /\
             1100 <= max_frame q) /\
  (is_type_error (init b sq None None p w h) = false ->
   is_value_error (init b sq None None p w h) = true).
Proof.
  assert (Hcases :
    (exists q, default [1] sq = [q] /\ seq_in_range q = true /\
               1100 <= max_frame q) \/
    (is_value_error (init b sq None None p w h) = true /\
     ~ exists q, default [1] sq = [q] /\ seq_in_range q = true /\
                 1100 <= max_frame q)).
  { destruct (default [1] sq) as [|q [|q' l]] eqn:Hseqs.
    - right. split; [unfold init; rewrite Hseqs; reflexivity|].
      intros (q & Hq & _). discriminate.
    - destruct (seq_in_range q) eqn:Hq.
      + destruct (Z_le_dec 1100 (max_frame q)) as [Hmax | Hmax].
        * left. exists q. auto.
        * right. split; [|intros (q' & [= <-] & _ & Hmax'); lia].
          apply init_violation. rewrite Hseqs. do 3 right.
          exists 0%nat, q, 0, 1100. split; [reflexivity|].
          destruct (window_ok q 0 1100) eqn:Hok; [|reflexivity].
          apply default_window_ok in Hok; [lia | assumption].
      + right. split; [|intros (q' & [= <-] & Hq' & _); congruence].
        apply init_violation. rewrite Hseqs. left.
        apply Exists_cons_hd. assumption.
    - right. split; [|intros (q0 & Hq0 & _); discriminate].
      apply init_violation. rewrite Hseqs. right. left. simpl. lia. }
  destruct Hcases as [(q & Hseqs & Hq & Hmax) | [Hv Hnot]].
  - rewrite (init_default_window_type_error b sq p w h q Hseqs Hq Hmax).
    simpl. split; [reflexivity|]. split; [|discriminate].
    split; [intros _; exists q; auto | reflexivity].
  - destruct (value_error_not_ok _ Hv) as [Hok Hty].
    split; [assumption|]. split; [|intros _; assumption].
    rewrite Hty. split; [discriminate | intros H; contradiction].
Qed.

Lemma init_without_frame_lists_fails_witness :
  is_ok (init "kitti" None None None "default" 1280 384) = false /\
  is_type_error (init "kitti" None None None "default" 1280 384) = true.
Proof.
  destruct (init_without_frame_lists_fails "kitti" None "default" 1280 384)
    as (Hok & Hty & _).
  split; [exact Hok|].
  apply Hty. exists 1. split; [reflexivity|]. split; [reflexivity|].
  change (max_frame 1) with 1100. lia.
Defined.

(** * Further properties *)

(** ** The constructor *)

Lemma running_sums_length (acc : Z) (l : list Z) :
  length (running_sums acc l) = length l.
Proof.
  revert acc. induction l as [|x l IH]; intros acc; simpl; [reflexivity|].
  now rewrite IH.
Qed.

Lemma running_sums_lookup (acc : Z) (l : list Z) (j : nat) :
  (j < length l)%nat ->
  running_sums acc l !! j = Some (acc + sum_Z (take (S j) l)).
Proof.
  revert acc j. induction l as [|x l IH]; intros acc j Hj; simpl in Hj; [lia|].
  destruct j as [|j]; simpl.
  - f_equal. destruct l; simpl; lia.
  - rewrite IH by lia. f_equal. simpl. lia.
Qed.

Lemma spans_positive (seqs starts ends : list Z) :
  length starts = length seqs -> length ends = length seqs ->
  (forall i q s e,
     window seqs starts ends i = Some (q, s, e) -> window_ok q s e = true) ->
  Forall (fun x => 0 < x) (spans starts ends).
Proof.
  intros Hs He Hwin. apply Forall_lookup. intros j x Hx.
  unfold spans in Hx. rewrite lookup_zip_with in Hx.
  destruct (ends !! j) as [e|] eqn:Hej; [|discriminate]. simpl in Hx.
  destruct (starts !! j) as [s|] eqn:Hsj; [|discriminate].
  injection Hx as <-.
  destruct (lookup_lt_is_Some_2 seqs j) as [q Hq].
  { apply lookup_lt_Some in Hej. lia. }
  specialize (Hwin j q s e). unfold window in Hwin.
  rewrite Hq, Hsj, Hej in Hwin. specialize (Hwin eq_refl).
  unfold window_ok, end_ok in Hwin. lia.
Qed.

Lemma sum_Z_at_least_length (l : list Z) :
  Forall (fun x => 0 < x) l -> Z.of_nat (length l) <= sum_Z l.
Proof. induction 1; simpl length; simpl sum_Z; lia. Qed.

(** The loop on an accepted configuration, with both lists given. *)
Lemma loop_on_valid_config (seqs starts ends : list Z) :
  valid_config seqs starts ends ->
  for_each (py_range (length seqs))
    (init_body seqs starts ends (Some starts) (Some ends))
    (0, replicate (length seqs) 0)
  = Ok (sum_Z (spans starts ends), running_sums 0 (spans starts ends)).
Proof.
  intros (Hne & Hall & Hs & He & Hwin).
  assert (Hself : forall l' l : list Z, Some l' = Some l -> l = l')
    by (intros l' l [= ->]; reflexivity).
  destruct (loop_run seqs starts ends (Some starts) (Some ends) Hall Hs He
              (replicate (length seqs) 0) (length_replicate _ _)
              (length seqs)) as (L & cum & Hrun & _);
    [lia | auto | intros j q s e _; apply Hwin |].
  rewrite Hrun. f_equal.
  apply loop_inv in Hrun as (_ & HL & Hlen & Htab & _);
    auto using length_replicate.
  assert (Hsp : length (spans starts ends) = length seqs)
    by (rewrite spans_length; lia).
  f_equal.
  - rewrite HL, take_ge; [reflexivity | lia].
  - apply list_eq. intros j.
    destruct (decide (j < length seqs)%nat) as [Hj | Hj].
    + rewrite (Htab j Hj), running_sums_lookup by lia. f_equal; lia.
    + rewrite !lookup_ge_None_2; [reflexivity | |];
        rewrite ?running_sums_length; lia.
Qed.

Lemma init_on_valid_config (b : string) (sq : option (list Z))
    (starts ends : list Z) (p : string) (w h : Z) :
  valid_config (default [1] sq) starts ends ->
  init b sq (Some starts) (Some ends) p w h
  = Ok (constructed_object b (default [1] sq) starts ends p w h).
Proof.
  intros Hv. pose proof Hv as (Hne & Hall & Hs & He & Hwin).
  unfold init. rewrite (range_check_pass _ Hne Hall). cbn [bind].
  change (default [0] (Some starts)) with starts.
  change (default [1100] (Some ends)) with ends.
  unfold len. rewrite Hs, He, Z.eqb_refl. cbn [negb].
  rewrite (loop_on_valid_config _ _ _ Hv). cbn [bind].
  pose proof (sum_Z_pos _ (spans_positive _ _ _ Hs He Hwin)) as Hpos.
  replace (sum_Z (spans starts ends) <? 0) with false by lia.
  reflexivity.
Qed.

(** A construction that returns, both lists given, was given an accepted
    configuration and returns its object. *)
Lemma init_given_lists_inv (b : string) (sq : option (list Z))
    (starts ends : list Z) (p : string) (w h : Z) (ds : KITTIDataset) :
  init b sq (Some starts) (Some ends) p w h = Ok ds ->
  valid_config (default [1] sq) starts ends /\
  ds = constructed_object b (default [1] sq) starts ends p w h.
Proof.
  intros H. pose proof H as Hinv.
  apply init_ok_inv in Hinv as (Hseqs & [= Hst] & [= Hen] & _ & C).
  assert (Hv : valid_config (default [1] sq) starts ends).
  { rewrite <- Hseqs, Hst, Hen.
    split; [apply (c_nonempty ds C)|]. split; [apply (c_range ds C)|].
    split; [apply (c_starts ds C)|]. split; [apply (c_ends ds C)|].
    apply (c_windows ds C). }
  split; [assumption|].
  rewrite (init_on_valid_config b sq starts ends p w h Hv) in H.
  now injection H as <-.
Qed.

(** X1: with both frame lists given, the construction succeeds exactly on
    the configurations that have at least one sequence, ids in [0, 10], one
    start and one end frame per sequence and every window with
    [0 <= start < end <= maxFrame]; the object then holds the lists as
    given, the sum of the spans as length and their running sums as
    cumulative table. *)
Theorem init_succeeds_exactly_on_valid_configurations (b : string)
    (sq : option (list Z)) (starts ends : list Z) (p : string) (w h : Z)
    (ds : KITTIDataset) :
  init b sq (Some starts) (Some ends) p w h = Ok ds <->
  valid_config (default [1] sq) starts ends /\
  ds = constructed_object b (default [1] sq) starts ends p w h.
Proof.
  split.
  - apply init_given_lists_inv.
  - intros [Hv ->]. now apply init_on_valid_config.
Qed.

Lemma init_succeeds_exactly_on_valid_configurations_witness :
  valid_config (default [1] (Some [0; 1])) [0; 0] [3; 2] /\
  two_windows "default"
  = Ok (constructed_object "kitti" [0; 1] [0; 0] [3; 2] "default" 1280 384).
Proof.
  assert (Hv : valid_config (default [1] (Some [0; 1])) [0; 0] [3; 2]).
  { split; [discriminate|]. split; [repeat constructor|].
    split; [reflexivity|]. split; [reflexivity|].
    intros [|[|i]] q s e Hw; simpl in Hw; try discriminate;
      injection Hw as <- <- <-; reflexivity. }
  split; [exact Hv|].
  apply (init_succeeds_exactly_on_valid_configurations "kitti" (Some [0; 1])
           [0; 0] [3; 2] "default" 1280 384).
  split; [exact Hv | reflexivity].
Defined.

(** X2: in the cumulative table of a constructed dataset every entry is
    positive and none exceeds the length, and the table is strictly
    increasing. *)
Theorem cumulative_table_strictly_increasing (b : string)
    (sq st en : option (list Z)) (p : string) (w h : Z) (ds : KITTIDataset) :
  init b sq st en p w h = Ok ds ->
  (forall i v, cumulativeLengths ds !! i = Some v -> 0 < v <= py_len ds) /\
  (forall i j vi vj,
     (i < j)%nat ->
     cumulativeLengths ds !! i = Some vi ->
     cumulativeLengths ds !! j = Some vj ->
     vi < vj).
Proof.
  intros H. apply init_constructed in H as C. split.
  - intros i v Hi. apply (table_lookup ds C) in Hi as [Hi ->].
    pose proof (prefix_mono ds C 0 i ltac:(lia)) as H0.
    change (prefix ds 0) with 0 in H0.
    pose proof (prefix_strict ds C i Hi) as H1.
    pose proof (prefix_mono ds C (S i) (length (sequences ds)) ltac:(lia))
      as H2.
    rewrite (prefix_all ds C) in H2. unfold py_len. lia.
  - intros i j vi vj Hij Hi Hj.
    apply (table_lookup ds C) in Hi as [Hi ->].
    apply (table_lookup ds C) in Hj as [Hj ->].
    pose proof (prefix_strict ds C i Hi) as H1.
    pose proof (prefix_mono ds C (S i) j ltac:(lia)) as H2.
    pose proof (prefix_strict ds C j Hj) as H3. lia.
Qed.

Lemma cumulative_table_strictly_increasing_witness :
  main_train "default" 1280 384
  = Ok (constructed_object "kitti" [0] [0] [4500] "default" 1280 384) /\
  (forall i v,
     cumulativeLengths
       (constructed_object "kitti" [0] [0] [4500] "default" 1280 384) !! i
     = Some v ->
     0 < v <= py_len
                (constructed_object "kitti" [0] [0] [4500] "default" 1280 384)).
Proof.
  split; [reflexivity|].
  apply (cumulative_table_strictly_increasing "kitti" (Some [0]) (Some [0])
           (Some [4500]) "default" 1280 384).
  reflexivity.
Defined.

(** X3: a constructed dataset has at least one window and at least one
    sample per window. *)
Theorem constructed_dataset_not_empty (b : string)
    (sq st en : option (list Z)) (p : string) (w h : Z) (ds : KITTIDataset) :
  init b sq st en p w h = Ok ds ->
  1 <= len (sequences ds) /\ len (sequences ds) <= py_len ds.
Proof.
  intros H. apply init_constructed in H as C. unfold len, py_len.
  pose proof (c_nonempty ds C) as Hne. split.
  - destruct (sequences ds); [congruence | simpl; lia].
  - rewrite (c_length ds C), <- (c_ends ds C).
    rewrite <- (spans_length (startFrames ds) (endFrames ds))
      by (now rewrite (c_starts ds C), (c_ends ds C)).
    apply sum_Z_at_least_length, constructed_spans_pos, C.
Qed.

Lemma constructed_dataset_not_empty_witness :
  two_windows "default" = Ok (two_windows_ds "default") /\
  1 <= len (sequences (two_windows_ds "default")) /\
  len (sequences (two_windows_ds "default")) <= py_len (two_windows_ds "default").
Proof.
  split; [reflexivity|].
  apply (constructed_dataset_not_empty "kitti" (Some [0; 1]) (Some [0; 0])
           (Some [3; 2]) "default" 1280 384).
  reflexivity.
Defined.

(** How the validation loop can fail: with the error of a window check, or
    with the [TypeError] of an omitted list; no subscript is out of range. *)
Lemma loop_raise (seqs starts ends : list Z)
    (raw_starts raw_ends : option (list Z)) (cum0 : list Z) (n : nat) (e : exn) :
  Forall (fun q => seq_in_range q = true) seqs ->
  length starts = length seqs -> length ends = length seqs ->
  (forall l, raw_starts = Some l -> l = starts) ->
  (forall l, raw_ends = Some l -> l = ends) ->
  length cum0 = length seqs -> (n <= length seqs)%nat ->
  for_each (py_range n) (init_body seqs starts ends raw_starts raw_ends)
    (0, cum0) = Raise e ->
  (exists q, e = ValueError (InvalidStartFrame q)
             \/ e = ValueError (InvalidEndFrame q)) \/
  (e = TypeError /\ (raw_starts = None \/ raw_ends = None)).
Proof.
  intros Hall Hs He Hss Hes Hc0.
  induction n as [|n IH]; intros Hn Hrun; [discriminate|].
  rewrite py_range_S, for_each_app in Hrun.
  destruct (for_each (py_range n) _ _) as [[L cum]|e'] eqn:Hpre;
    cbn [bind] in Hrun.
  2:{ injection Hrun as <-. apply IH; [lia | reflexivity]. }
  apply loop_inv in Hpre as (_ & _ & Hlen & _); auto; [|lia].
  cbn [for_each] in Hrun.
  destruct (window_total seqs starts ends n) as (q & s & e0 & Hw); [lia..|].
  pose proof (window_in_range _ _ _ Hall _ _ _ _ Hw) as Hq.
  destruct (window_ok q s e0) eqn:Hok.
  - rewrite (body_good _ _ _ _ _ _ _ _ _ _ _ Hw Hq Hok) in Hrun.
    apply window_Some in Hw as (_ & Hsn & Hen).
    destruct raw_ends as [re|]; [|right; injection Hrun as <-; auto].
    destruct raw_starts as [rs|].
    + rewrite (Hss rs eq_refl), (Hes re eq_refl) in Hrun. simpl in Hrun.
      rewrite (py_get_nat _ _ _ Hsn), (py_get_nat _ _ _ Hen) in Hrun.
      simpl in Hrun. rewrite py_set_nat in Hrun by lia. discriminate.
    + rewrite (Hes re eq_refl) in Hrun. simpl in Hrun.
      rewrite (py_get_nat _ _ _ Hen) in Hrun. simpl in Hrun.
      right. injection Hrun as <-. auto.
  - rewrite (body_bad _ _ _ _ _ _ _ _ _ _ Hw Hq Hok) in Hrun.
    cbn [bind] in Hrun. injection Hrun as <-. left. exists q.
    destruct (start_ok q s); auto.
Qed.

(** The exceptions of a failing construction. *)
Lemma init_raise_inv (b : string) (sq st en : option (list Z))
    (p : string) (w h : Z) (e : exn) :
  init b sq st en p w h = Raise e -> init_error st en e.
Proof.
  unfold init. intros H.
  destruct (range_check (default [1] sq)) as [oor|e'] eqn:Hrange.
  2:{ cbn [bind] in H. injection H as <-.
      unfold range_check in Hrange.
      destruct (default [1] sq) as [|x l]; simpl in Hrange.
      - now injection Hrange as <-.
      - destruct (fold_left Z.min l x <? 0); discriminate. }
  cbn [bind] in H. destruct oor; [now injection H as <-|].
  apply range_check_inv in Hrange as [Hne Hall].
  destruct (len (default [1] sq) =? len (default [0] st)) eqn:Hls;
    cbn [negb] in H; [|now injection H as <-].
  destruct (len (default [1] sq) =? len (default [1100] en)) eqn:Hle;
    cbn [negb] in H; [|now injection H as <-].
  unfold len in Hls, Hle.
  destruct (for_each _ _ _) as [[L cum]|e'] eqn:Hloop; cbn [bind] in H.
  - apply loop_inv in Hloop as (_ & HL & _ & _ & _ & Hwin);
      try lia; auto using default_self, length_replicate.
    assert (0 <= L).
    { rewrite HL. apply sum_Z_pos, Forall_take.
      apply (spans_positive (default [1] sq)); [lia | lia |].
      intros i q s e0 Hw. apply (Hwin i q s e0); [|assumption].
      apply window_Some in Hw as (Hq & _). now apply lookup_lt_Some in Hq. }
    replace (L <? 0) with false in H by lia. discriminate.
  - injection H as <-.
    apply loop_raise in Hloop
      as [(q & [-> | ->]) | (-> & [Hst | Hen])];
      try lia; auto using default_self, length_replicate; simpl; auto.
Qed.

(** X4: a failing construction ends in one of the [ValueError]s of the
    checks (or of [min] on an empty list), or, only when a frame list was
    omitted, in a [TypeError]; it never ends in an [IndexError] and the
    final negative-length check never fires. *)
Theorem init_failure_kinds (b : string) (sq st en : option (list Z))
    (p : string) (w h : Z) (e : exn) :
  init b sq st en p w h = Raise e ->
  init_error st en e /\
  e <> IndexError /\ e <> ValueError NegativeLength.
Proof.
  intros H. apply init_raise_inv in H. split; [assumption|].
  split; intros ->; exact H.
Qed.

Lemma init_failure_kinds_witness :
  init "kitti" (Some [0]) None (Some [5]) "default" 1280 384 = Raise TypeError /\
  init_error None (Some [5]) TypeError.
Proof.
  split; [reflexivity|].
  apply (init_failure_kinds "kitti" (Some [0]) None (Some [5]) "default"
           1280 384 TypeError).
  reflexivity.
Defined.

(** X5: omitting either of the two frame lists, not only both, makes the
    construction fail: it ends in a [TypeError] or in a [ValueError], and
    a construction that succeeds was given both lists. *)
Theorem init_needs_both_frame_lists (b : string) (sq st en : option (list Z))
    (p : string) (w h : Z) :
  st = None \/ en = None ->
  is_ok (init b sq st en p w h) = false /\
  (is_type_error (init b sq st en p w h) = true \/
   is_value_error (init b sq st en p w h) = true).
Proof.
  intros Hnone.
  destruct (init b sq st en p w h) as [ds|e] eqn:H.
  - apply init_ok_inv in H as (_ & Hst & Hen & _).
    destruct Hnone; congruence.
  - split; [reflexivity|]. apply init_raise_inv in H.
    destruct e as [v| | | | |]; simpl in *; auto; contradiction.
Qed.

Lemma init_needs_both_frame_lists_witness :
  (@None (list Z) = None \/ Some [5] = None) /\
  is_ok (init "kitti" (Some [0]) None (Some [5]) "default" 1280 384) = false.
Proof.
  split; [now left|].
  apply (init_needs_both_frame_lists "kitti" (Some [0]) None (Some [5])
           "default" 1280 384).
  now left.
Defined.

(** ** The lookup, with [helpers.first_ge] as modelled *)

Lemma lookup_ok_routed (ds : KITTIDataset) (idx : Z) (lk : FrameLookup) :
  constructed ds -> lookup ds idx = Ok lk ->
  exists n q s e,
    routes_to ds idx n /\
    window (sequences ds) (startFrames ds) (endFrames ds) n = Some (q, s, e) /\
    lk = {| seqKey := Z.of_nat n; seqIdx := q;
            frame1 := s + (idx - prefix ds n);
            frame2 := s + (idx - prefix ds n) + 1;
            endOfSequence := (s + (idx - prefix ds n) + 1 =? e) |}.
Proof.
  intros C Hl.
  assert (Hidx : idx <= py_len ds).
  { destruct (Z_le_gt_dec idx (py_len ds)) as [Hle | Hgt]; [assumption|].
    rewrite lookup_above_length in Hl by (assumption || lia). discriminate. }
  destruct (lookup_valid_index ds idx C Hidx) as (n & q & s & e & Hr & Hw & Hl').
  exists n, q, s, e. split; [assumption|]. split; [assumption|]. congruence.
Qed.

Lemma routes_to_bounds (ds : KITTIDataset) (idx : Z) (n : nat) :
  constructed ds -> 0 <= idx -> routes_to ds idx n ->
  prefix ds n <= idx <= prefix ds (S n).
Proof.
  intros C Hidx (Hn & Hup & Hlow). split; [|assumption].
  destruct n as [|m]; [exact Hidx|].
  specialize (Hlow m ltac:(lia)). lia.
Qed.

Lemma window_span (ds : KITTIDataset) (n : nat) (q s e : Z) :
  window (sequences ds) (startFrames ds) (endFrames ds) n = Some (q, s, e) ->
  prefix ds (S n) = prefix ds n + (e - s).
Proof.
  intros Hw. unfold prefix. apply sum_Z_take_S.
  apply (span_lookup (sequences ds) _ _ n q), Hw.
Qed.

(** X6: on a dataset of one window, as [main.py] constructs them, the
    lookup of every [0 <= idx < length] returns frames [start + idx] and
    [start + idx + 1] of that sequence, and flags the end exactly at the
    last index [length - 1]. *)
Theorem single_window_lookup (b : string) (q s e : Z) (p : string) (w h : Z)
    (ds : KITTIDataset) (idx : Z) :
  init b (Some [q]) (Some [s]) (Some [e]) p w h = Ok ds ->
  0 <= idx < py_len ds ->
  py_len ds = e - s /\
  lookup ds idx
  = Ok {| seqKey := 0; seqIdx := q; frame1 := s + idx; frame2 := s + idx + 1;
          endOfSequence := (idx =? py_len ds - 1) |}.
Proof.
  intros H Hidx. pose proof (init_constructed _ _ _ _ _ _ _ _ H) as C.
  apply init_given_lists_inv in H as [_ ->].
  change (default [1] (Some [q])) with [q] in *.
  assert (Hlen : py_len (constructed_object b [q] [s] [e] p w h) = e - s).
  { unfold py_len. simpl. lia. }
  split; [exact Hlen|]. rewrite Hlen. rewrite Hlen in Hidx.
  destruct (lookup_valid_index _ idx C) as (n & q' & s' & e' & Hr & Hw & Hl);
    [lia|].
  assert (n = 0%nat) as -> by (destruct Hr as [Hn _]; simpl in Hn; lia).
  simpl in Hw. injection Hw as <- <- <-. rewrite Hl.
  change (prefix (constructed_object b [q] [s] [e] p w h) 0) with 0.
  rewrite Z.sub_0_r. f_equal. f_equal. lia.
Qed.

Lemma single_window_lookup_witness :
  main_train "default" 1280 384
  = Ok (constructed_object "kitti" [0] [0] [4500] "default" 1280 384) /\
  0 <= 4499
    < py_len (constructed_object "kitti" [0] [0] [4500] "default" 1280 384) /\
  lookup (constructed_object "kitti" [0] [0] [4500] "default" 1280 384) 4499
  = Ok {| seqKey := 0; seqIdx := 0; frame1 := 4499; frame2 := 4500;
          endOfSequence := true |}.
Proof.
  split; [reflexivity|]. split; [unfold py_len; simpl; lia|].
  apply (single_window_lookup "kitti" 0 0 4500 "default" 1280 384);
    [reflexivity | unfold py_len; simpl; lia].
Defined.

(** X7: for [0 <= idx < length] the first frame the lookup returns lies
    within the window it was routed to, [start <= frame1 <= end], hence
    within the sequence, [0 <= frame1 <= maxFrame]; the second frame may be
    one behind the end but never more. *)
Theorem lookup_frames_within_window (b : string) (sq st en : option (list Z))
    (p : string) (w h : Z) (ds : KITTIDataset) (idx : Z) :
  init b sq st en p w h = Ok ds ->
  0 <= idx < py_len ds ->
  exists lk s e,
    lookup ds idx = Ok lk /\
    py_get (startFrames ds) (seqKey lk) = Ok s /\
    py_get (endFrames ds) (seqKey lk) = Ok e /\
    s <= frame1 lk <= e /\
    0 <= frame1 lk <= max_frame (seqIdx lk) /\
    frame2 lk <= e + 1.
Proof.
  intros H Hidx. apply init_constructed in H as C.
  destruct (lookup_valid_index ds idx C) as (n & q & s & e & Hr & Hw & Hl);
    [lia|].
  pose proof (routes_to_bounds ds idx n C ltac:(lia) Hr) as Hb.
  pose proof (window_span ds n q s e Hw) as Hsp.
  pose proof (c_windows ds C n q s e Hw) as Hok.
  unfold window_ok, start_ok, end_ok in Hok.
  apply window_Some in Hw as (_ & Hs & He).
  eexists; exists s, e. split; [exact Hl|]. simpl.
  split; [now apply py_get_nat|]. split; [now apply py_get_nat|]. lia.
Qed.

Lemma lookup_frames_within_window_witness :
  two_windows "default" = Ok (two_windows_ds "default") /\
  0 <= 4 < py_len (two_windows_ds "default") /\
  exists lk s e,
    lookup (two_windows_ds "default") 4 = Ok lk /\
    py_get (startFrames (two_windows_ds "default")) (seqKey lk) = Ok s /\
    py_get (endFrames (two_windows_ds "default")) (seqKey lk) = Ok e /\
    s <= frame1 lk <= e /\
    0 <= frame1 lk <= max_frame (seqIdx lk) /\
    frame2 lk <= e + 1.
Proof.
  split; [reflexivity|]. split; [unfold py_len; simpl; lia|].
  apply (lookup_frames_within_window "kitti" (Some [0; 1]) (Some [0; 0])
           (Some [3; 2]) "default" 1280 384);
    [reflexivity | unfold py_len; simpl; lia].
Defined.

(** X8: no two indices share a frame pair: lookups that return the same
    window key and the same first frame were given the same index. *)
Theorem lookup_injective (b : string) (sq st en : option (list Z))
    (p : string) (w h : Z) (ds : KITTIDataset) (idx idx' : Z)
    (lk lk' : FrameLookup) :
  init b sq st en p w h = Ok ds ->
  lookup ds idx = Ok lk -> lookup ds idx' = Ok lk' ->
  seqKey lk = seqKey lk' -> frame1 lk = frame1 lk' ->
  idx = idx'.
Proof.
  intros H Hl Hl' Hkey Hframe. apply init_constructed in H as C.
  apply (lookup_ok_routed ds idx lk C) in Hl
    as (n & q & s & e & _ & Hw & ->).
  apply (lookup_ok_routed ds idx' lk' C) in Hl'
    as (n' & q' & s' & e' & _ & Hw' & ->).
  simpl in Hkey, Hframe. assert (n' = n) as -> by lia.
  rewrite Hw in Hw'. injection Hw' as <- <- <-. lia.
Qed.

Lemma lookup_injective_witness :
  two_windows "default" = Ok (two_windows_ds "default") /\
  (forall idx lk,
     lookup (two_windows_ds "default") idx = Ok lk ->
     seqKey lk = 1 -> frame1 lk = 1 -> idx = 4).
Proof.
  split; [reflexivity|]. intros idx lk Hl Hkey Hframe.
  apply (lookup_injective "kitti" (Some [0; 1]) (Some [0; 0]) (Some [3; 2])
           "default" 1280 384 (two_windows_ds "default") idx 4 lk
           {| seqKey := 1; seqIdx := 1; frame1 := 1; frame2 := 2;
              endOfSequence := true |});
    [reflexivity | exact Hl | reflexivity | exact Hkey | exact Hframe].
Defined.

(** X9: within a window the samples are consecutive in time: when [idx]
    and [idx + 1] are routed to the same window, the first frame of the
    later sample is the second frame of the earlier one. *)
Theorem lookup_consecutive_indices (b : string) (sq st en : option (list Z))
    (p : string) (w h : Z) (ds : KITTIDataset) (idx : Z)
    (lk lk' : FrameLookup) :
  init b sq st en p w h = Ok ds ->
  lookup ds idx = Ok lk -> lookup ds (idx + 1) = Ok lk' ->
  seqKey lk = seqKey lk' ->
  seqIdx lk' = seqIdx lk /\ frame1 lk' = frame2 lk.
Proof.
  intros H Hl Hl' Hkey. apply init_constructed in H as C.
  apply (lookup_ok_routed ds idx lk C) in Hl
    as (n & q & s & e & _ & Hw & ->).
  apply (lookup_ok_routed ds (idx + 1) lk' C) in Hl'
    as (n' & q' & s' & e' & _ & Hw' & ->).
  simpl in Hkey. assert (n' = n) as -> by lia.
  rewrite Hw in Hw'. injection Hw' as <- <- <-. simpl. split; [reflexivity | lia].
Qed.

Lemma lookup_consecutive_indices_witness :
  two_windows "default" = Ok (two_windows_ds "default") /\
  lookup (two_windows_ds "default") 1
  = Ok {| seqKey := 0; seqIdx := 0; frame1 := 1; frame2 := 2;
          endOfSequence := false |} /\
  lookup (two_windows_ds "default") (1 + 1)
  = Ok {| seqKey := 0; seqIdx := 0; frame1 := 2; frame2 := 3;
          endOfSequence := true |} /\
  0 = 0 /\ 2 = 2.
Proof.
  split; [reflexivity|]. split; [reflexivity|]. split; [reflexivity|].
  apply (lookup_consecutive_indices "kitti" (Some [0; 1]) (Some [0; 0])
           (Some [3; 2]) "default" 1280 384 (two_windows_ds "default") 1
           {| seqKey := 0; seqIdx := 0; frame1 := 1; frame2 := 2;
              endOfSequence := false |}
           {| seqKey := 0; seqIdx := 0; frame1 := 2; frame2 := 3;
              endOfSequence := true |});
    reflexivity.
Defined.

(** ** The sample of [__getitem__] *)

Lemma lookup_ok_frames (ds : KITTIDataset) (idx : Z) (lk : FrameLookup) :
  lookup ds idx = Ok lk -> frame2 lk = frame1 lk + 1.
Proof.
  unfold lookup. intros H.
  apply bind_ok in H as (k & _ & H). apply bind_ok in H as (q & _ & H).
  apply bind_ok in H as (off & _ & H). apply bind_ok in H as (s & _ & H).
  apply bind_ok in H as (e & _ & H). now injection H as <-.
Qed.

Lemma recognized_tags (tag : string) : recognized tag = true <-> In tag tags.
Proof.
  unfold recognized, tags. rewrite !orb_true_iff, !String.eqb_eq. simpl.
  intuition congruence.
Qed.

Section SampleFacts.
Context {E : Externals}.

Lemma encode_Some (tag : string) (R : Mat3 Scalar) (t : Vec3 Scalar)
    (pose2 : Mat4 Scalar) (code : list Scalar * Vec3 Scalar) :
  encode tag R t pose2 = Ok (Some code) ->
  (tag = "default"%string \/ tag = "euler"%string) /\ length (fst code) = 3%nat
  \/ (tag = "quaternion"%string \/ tag = "se3"%string)
     /\ length (fst code) = 4%nat.
Proof.
  unfold encode. intros H.
  destruct (String.eqb_spec tag "default") as [-> | _].
  { injection H as <-. left. split; [auto|].
    simpl. now destruct (tr2rpy _) as [[? ?] ?]. }
  destruct (String.eqb_spec tag "quaternion") as [-> | _].
  { injection H as <-. right. split; [auto|].
    simpl. now destruct (r2q _) as [[[? ?] ?] ?]. }
  destruct (String.eqb_spec tag "euler") as [-> | _]; [discriminate|].
  destruct (String.eqb_spec tag "se3") as [-> | _]; [|discriminate].
  injection H as <-. right. split; [auto|].
  simpl. now destruct (r2q _) as [[[? ?] ?] ?].
Qed.

(** The outcome of the branches, tag by tag. *)
Lemma encode_cases (tag : string) (R : Mat3 Scalar) (t : Vec3 Scalar)
    (pose2 : Mat4 Scalar) :
  (In tag ["default"; "quaternion"; "se3"]%string /\
   exists code, encode tag R t pose2 = Ok (Some code)) \/
  (tag = "euler"%string /\ encode tag R t pose2 = Raise TypeError) \/
  (~ In tag tags /\ encode tag R t pose2 = Ok None).
Proof.
  unfold encode, tags.
  destruct (String.eqb_spec tag "default") as [-> | H1].
  { left. split; [simpl; auto | eauto]. }
  destruct (String.eqb_spec tag "quaternion") as [-> | H2].
  { left. split; [simpl; auto | eauto]. }
  destruct (String.eqb_spec tag "euler") as [-> | H3].
  { right. left. split; reflexivity. }
  destruct (String.eqb_spec tag "se3") as [-> | H4].
  { left. split; [simpl; auto | eauto]. }
  right. right. split; [|reflexivity].
  simpl. intros [H | [H | [H | [H | []]]]]; congruence.
Qed.

(** X10: a sample is returned only when every step succeeded: the lookup,
    the image pair, the pose file, both pose rows and the inversion, under a
    recognized tag; it carries the image tensor of the looked-up frames and
    their sequence id, frame numbers and end flag, with
    [frame2 = frame1 + 1]. *)
Theorem getitem_sample_inv (ds : KITTIDataset) (idx : Z) (sample : Sample) :
  getitem ds idx = Ok (Some sample) ->
  exists lk pose1 pose2 inv1,
    reads ds idx lk (inputTensor sample) pose1 pose2 inv1 /\
    recognized (parameterization ds) = true /\
    sample_seqIdx sample = seqIdx lk /\
    sample_frame1 sample = frame1 lk /\
    sample_frame2 sample = frame2 lk /\
    sample_endOfSequence sample = endOfSequence lk /\
    sample_frame2 sample = sample_frame1 sample + 1.
Proof.
  unfold getitem, relative_pose, relative. intros H.
  apply bind_ok in H as (lk & Hl & H).
  apply bind_ok in H as (input & Hin & H).
  apply bind_ok in H as (poses & Hp & H).
  apply bind_ok in H as (pose1 & Hp1 & H).
  apply bind_ok in H as (pose2 & Hp2 & H).
  apply bind_ok in H as (Rt & HRt & H).
  apply bind_ok in HRt as (M & HM & _).
  apply bind_ok in HM as (inv1 & Hinv & _).
  apply bind_ok in H as (code & Henc & H).
  destruct code as [[rot t]|]; [|discriminate].
  injection H as <-. simpl.
  exists lk, pose1, pose2, inv1. split.
  { split; [assumption|]. split; [assumption|]. split; [eauto | assumption]. }
  split.
  { destruct (recognized (parameterization ds)) eqn:Hrec; [reflexivity|].
    rewrite encode_unrecognized in Henc by assumption. discriminate. }
  repeat split. now apply lookup_ok_frames in Hl.
Qed.

(** X11: the rotation of a returned sample has three components under the
    default and euler tags and four under quaternion and se3; no other tag
    yields a sample. *)
Theorem sample_rotation_arity (ds : KITTIDataset) (idx : Z) (sample : Sample) :
  getitem ds idx = Ok (Some sample) ->
  (parameterization ds = "default"%string
   \/ parameterization ds = "euler"%string)
  /\ length (rotation sample) = 3%nat
  \/ (parameterization ds = "quaternion"%string
      \/ parameterization ds = "se3"%string)
     /\ length (rotation sample) = 4%nat.
Proof.
  unfold getitem. intros H.
  apply bind_ok in H as (lk & _ & H). apply bind_ok in H as (input & _ & H).
  apply bind_ok in H as (poses & _ & H). apply bind_ok in H as (pose1 & _ & H).
  apply bind_ok in H as (pose2 & _ & H). apply bind_ok in H as (Rt & _ & H).
  apply bind_ok in H as (code & Henc & H).
  destruct code as [[rot t]|]; [|discriminate].
  injection H as <-. simpl. apply encode_Some in Henc. exact Henc.
Qed.

(** X12: when the lookup, the reads and the inversion succeed, [get]
    returns a sample exactly for the three tags [default], [quaternion]
    and [se3], compared as exact strings; it ends in a [TypeError] exactly
    for the tag [euler], whose call of [tr2eul] has a keyword the function
    does not take; and it returns [None] for every other tag. *)
Theorem getitem_sample_iff_tag (ds : KITTIDataset) (idx : Z)
    (lk : FrameLookup) (input : Tensor) (pose1 pose2 inv1 : Mat4 Scalar) :
  reads ds idx lk input pose1 pose2 inv1 ->
  ((exists sample, getitem ds idx = Ok (Some sample)) <->
   In (parameterization ds) ["default"; "quaternion"; "se3"]%string) /\
  (getitem ds idx = Raise TypeError <->
   parameterization ds = "euler"%string) /\
  (getitem ds idx = Ok None <-> ~ In (parameterization ds) tags).
Proof.
  intros Hr. rewrite (getitem_run _ _ _ _ _ _ _ Hr).
  destruct (encode_cases (parameterization ds)
              (rot_block (np_dot inv1 pose2))
              (map3 to_float32 (trans_col (np_dot inv1 pose2))) pose2)
    as [(Hin & code & ->) | [(Htag & ->) | (Hnot & ->)]]; cbn [bind fmap].
  - split; [|split].
    + split; [intros _; exact Hin | intros _; simpl; eauto].
    + split; [discriminate|]. intros Htag. rewrite Htag in Hin. simpl in Hin.
      destruct Hin as [H | [H | [H | []]]]; discriminate.
    + split; [discriminate|]. intros Hnot. exfalso. apply Hnot.
      unfold tags. simpl in Hin |- *. tauto.
  - split; [|split].
    + split; [intros [sample H]; discriminate|]. rewrite Htag. simpl.
      intros [H | [H | [H | []]]]; discriminate.
    + split; auto.
    + split; [discriminate|]. intros Hnot. exfalso. apply Hnot.
      rewrite Htag. unfold tags. simpl. auto.
  - split; [|split].
    + split; [intros [sample H]; discriminate|]. intros Hin. exfalso.
      apply Hnot. unfold tags. simpl in Hin |- *. tauto.
    + split; [discriminate|]. intros Htag. exfalso. apply Hnot.
      rewrite Htag. unfold tags. simpl. auto.
    + split; auto.
Qed.
End SampleFacts.

Lemma getitem_sample_inv_witness :
  getitem (E := IntWorld.world) (two_windows_ds "default") 1
  = Ok (Some (@Build_Sample IntWorld.world (0, 1, 2) [0; 0; -1] (0, 0, 1)
                0 1 2 false)) /\
  exists lk pose1 pose2 inv1,
    reads (E := IntWorld.world) (two_windows_ds "default") 1 lk (0, 1, 2)
      pose1 pose2 inv1 /\
    recognized "default" = true /\
    0 = seqIdx lk /\ 1 = frame1 lk /\ 2 = frame2 lk /\
    false = endOfSequence lk /\ 2 = 1 + 1.
Proof.
  split; [reflexivity|].
  apply (getitem_sample_inv (E := IntWorld.world) (two_windows_ds "default") 1
           (@Build_Sample IntWorld.world (0, 1, 2) [0; 0; -1] (0, 0, 1)
              0 1 2 false)).
  reflexivity.
Defined.

Lemma sample_rotation_arity_witness :
  getitem (E := IntWorld.world) (two_windows_ds "se3") 1
  = Ok (Some (@Build_Sample IntWorld.world (0, 1, 2) [4; 0; 0; 0] (0, 0, 2)
                0 1 2 false)) /\
  (("se3" = "default" \/ "se3" = "euler")%string
   /\ length [4; 0; 0; 0] = 3%nat
   \/ ("se3" = "quaternion" \/ "se3" = "se3")%string
      /\ length [4; 0; 0; 0] = 4%nat).
Proof.
  split; [reflexivity|].
  apply (sample_rotation_arity (E := IntWorld.world) (two_windows_ds "se3") 1
           (@Build_Sample IntWorld.world (0, 1, 2) [4; 0; 0; 0] (0, 0, 2)
              0 1 2 false)).
  reflexivity.
Defined.

Lemma getitem_sample_iff_tag_witness :
  reads (E := IntWorld.world) (two_windows_ds "euler") 1 lookup_1 (0, 1, 2)
    pose_1 pose_2 inverse_1 /\
  getitem (E := IntWorld.world) (two_windows_ds "euler") 1 = Raise TypeError.
Proof.
  split; [reads_by_evaluation|].
  apply (getitem_sample_iff_tag (E := IntWorld.world)
           (two_windows_ds "euler") 1 lookup_1 (0, 1, 2)
           pose_1 pose_2 inverse_1);
    [reads_by_evaluation | reflexivity].
Defined.

(** ** Loading a pose *)

Lemma reshape_3_4_ok {S : Type} (row : list S) (m : Mat34 S) :
  reshape_3_4 row = Ok m <->
  length row = 12%nat /\
  (let '(r0, r1, r2) := m in flat4 r0 ++ flat4 r1 ++ flat4 r2) = row.
Proof.
  split.
  - intros H. do 13 (destruct row as [|? row]; try discriminate).
    injection H as <-. split; reflexivity.
  - intros [Hlen Hrow].
    do 13 (destruct row as [|? row]; try discriminate).
    destruct m as [[[[[a0 a1] a2] a3] [[[b0 b1] b2] b3]] [[[c0 c1] c2] c3]].
    simpl in Hrow. now injection Hrow as -> -> -> -> -> -> -> -> -> -> -> ->.
Qed.

Lemma reshape_3_4_raise {S : Type} (row : list S) :
  length row <> 12%nat -> reshape_3_4 row = Raise (ValueError CannotReshape).
Proof.
  intros H. do 13 (destruct row as [|? row]; try reflexivity).
  simpl in H. lia.
Qed.

Lemma py_get_negative {A : Type} (l : list A) (i : Z) :
  - len l <= i < 0 -> py_get l i = py_get l (len l + i).
Proof.
  intros Hi. unfold py_get, py_index.
  replace ((0 <=? i) && (i <? len l)) with false by lia.
  replace ((- len l <=? i) && (i <? 0)) with true by lia.
  replace ((0 <=? len l + i) && (len l + i <? len l)) with true by lia.
  reflexivity.
Qed.

Lemma py_get_out_of_range {A : Type} (l : list A) (i : Z) :
  i < - len l \/ len l <= i -> py_get l i = Raise IndexError.
Proof.
  intros Hi. unfold py_get, py_index.
  replace ((0 <=? i) && (i <? len l)) with false by lia.
  replace ((- len l <=? i) && (i <? 0)) with false by lia.
  reflexivity.
Qed.

Section PoseFacts.
Context {E : Externals}.

(** X13: a pose that loads is homogeneous, its last row is [0, 0, 0, 1],
    and its first three rows hold, row by row, the twelve numbers of the
    line of the pose file (as float32). *)
Theorem load_pose_homogeneous (poses : list (list Scalar)) (frame : Z)
    (M : Mat4 Scalar) :
  load_pose poses frame = Ok M ->
  bottom_row M = (f_zero, f_zero, f_zero, f_one) /\
  exists row,
    py_get poses frame = Ok row /\ length row = 12%nat /\
    top_rows M = map to_float32 row.
Proof.
  unfold load_pose. intros H.
  apply bind_ok in H as (row & Hrow & H).
  apply bind_ok in H as (m & Hm & H). injection H as <-.
  apply reshape_3_4_ok in Hm as [Hlen Hflat].
  destruct m as [[r0 r1] r2]. split; [reflexivity|].
  exists row. split; [assumption|].
  split; [now rewrite length_map in Hlen|]. exact Hflat.
Qed.

(** X14: a frame number outside [-n, n), [n] the number of lines of the pose
    file, fails with an [IndexError]; a negative frame number in range is
    not rejected but counts from the end of the file; a line that does not
    have twelve numbers fails with the [ValueError] of the reshape. *)
Theorem load_pose_bounds (poses : list (list Scalar)) (frame : Z) :
  (frame < - len poses \/ len poses <= frame ->
   load_pose poses frame = Raise IndexError) /\
  (- len poses <= frame < 0 ->
   load_pose poses frame = load_pose poses (len poses + frame)) /\
  (forall row, py_get poses frame = Ok row -> length row <> 12%nat ->
   load_pose poses frame = Raise (ValueError CannotReshape)).
Proof.
  unfold load_pose. split; [|split].
  - intros H. now rewrite py_get_out_of_range.
  - intros H. now rewrite py_get_negative.
  - intros row Hrow Hlen. rewrite Hrow. cbn [bind].
    rewrite reshape_3_4_raise; [reflexivity|]. now rewrite length_map.
Qed.
End PoseFacts.

Lemma load_pose_homogeneous_witness :
  load_pose (E := IntWorld.world) (map IntWorld.pose_row (py_range 6)) 1
  = Ok pose_1 /\
  bottom_row pose_1 = (0, 0, 0, 1) /\
  exists row,
    py_get (map IntWorld.pose_row (py_range 6)) 1 = Ok row /\
    length row = 12%nat /\
    top_rows pose_1 = map (fun x => x) row.
Proof.
  split; [reflexivity|].
  apply (load_pose_homogeneous (E := IntWorld.world)
           (map IntWorld.pose_row (py_range 6)) 1 pose_1).
  reflexivity.
Defined.

Lemma load_pose_bounds_witness :
  (- len (map IntWorld.pose_row (py_range 6)) <= -5 < 0) /\
  load_pose (E := IntWorld.world) (map IntWorld.pose_row (py_range 6)) (-5)
  = Ok pose_1 /\
  load_pose (E := IntWorld.world) (map IntWorld.pose_row (py_range 6)) 6
  = Raise IndexError.
Proof.
  assert (Hneg : - len (map IntWorld.pose_row (py_range 6)) <= -5 < 0)
    by (unfold len; simpl; lia).
  split; [exact Hneg|].
  destruct (load_pose_bounds (E := IntWorld.world)
              (map IntWorld.pose_row (py_range 6)) (-5)) as (_ & Hwrap & _).
  destruct (load_pose_bounds (E := IntWorld.world)
              (map IntWorld.pose_row (py_range 6)) 6) as (Hout & _ & _).
  split.
  - rewrite (Hwrap Hneg). reflexivity.
  - apply Hout. right. unfold len. simpl. lia.
Defined.

(** ** [preprocess_img] *)

Lemma concat_replicate_lookup {A : Type} (l : list A) (r i : nat) :
  (0 < length l)%nat -> (i < r * length l)%nat ->
  concat (replicate r l) !! i = l !! Nat.modulo i (length l).
Proof.
  intros Hl. revert i. induction r as [|r IH]; intros i Hi; [simpl in Hi; lia|].
  simpl. destruct (decide (i < length l)%nat) as [Hlt | Hge].
  - rewrite lookup_app_l by assumption. now rewrite Nat.mod_small.
  - rewrite lookup_app_r by lia. rewrite IH by (simpl in Hi; lia).
    f_equal.
    apply (Nat.mod_unique i (length l) (S ((i - length l) / length l))).
    + apply Nat.mod_upper_bound. lia.
    + pose proof (Nat.div_mod_eq (i - length l) (length l)). lia.
Qed.

Lemma concat_replicate_length {A : Type} (l : list A) (r : nat) :
  length (concat (replicate r l)) = (r * length l)%nat.
Proof.
  induction r as [|r IH]; simpl; [reflexivity|].
  now rewrite length_app, IH.
Qed.

Lemma ceil_div_covers (n m : nat) :
  (0 < m)%nat ->
  (n <= Z.to_nat (- (- Z.of_nat n / Z.of_nat m)) * m)%nat.
Proof.
  intros Hm.
  pose proof (Z.div_mod (- Z.of_nat n) (Z.of_nat m) ltac:(lia)) as Hdm.
  pose proof (Z.mod_pos_bound (- Z.of_nat n) (Z.of_nat m) ltac:(lia)) as Hb.
  assert (Hq : - Z.of_nat n / Z.of_nat m <= 0).
  { apply Z.div_le_upper_bound; lia. }
  apply Nat2Z.inj_le. rewrite Nat2Z.inj_mul, Z2Nat.id by lia. nia.
Qed.

Lemma flat_map_block {A : Type} (f : nat -> list A) (n m a b : nat) :
  (forall a', (a' < n)%nat -> length (f a') = m) ->
  (a < n)%nat -> (b < m)%nat ->
  flat_map f (seq 0 n) !! (a * m + b)%nat = f a !! b.
Proof.
  intros Hlen Ha Hb.
  assert (Hgen : forall s k, (forall a', (s <= a' < s + k)%nat -> length (f a') = m) ->
            (s <= a < s + k)%nat ->
            flat_map f (seq s k) !! ((a - s) * m + b)%nat = f a !! b).
  { intros s k. revert s. induction k as [|k IH]; intros s Hl Hr; [lia|].
    simpl. destruct (decide (a = s)) as [-> | Hne].
    - rewrite Nat.sub_diag. simpl. rewrite lookup_app_l; [reflexivity|].
      rewrite Hl by lia. exact Hb.
    - rewrite lookup_app_r; rewrite Hl by lia; [|nia].
      replace ((a - s) * m + b - m)%nat with ((a - S s) * m + b)%nat by nia.
      apply IH; [intros a' Ha'; apply Hl; lia | lia]. }
  specialize (Hgen 0%nat n). rewrite Nat.sub_0_r in Hgen.
  apply Hgen; [intros a' Ha'; apply Hlen; lia | lia].
Qed.

Lemma index_bound (a b i j : nat) :
  (i < a)%nat -> (j < b)%nat -> (i * b + j < a * b)%nat.
Proof. intros Hi Hj. nia. Qed.

Lemma mod_times_three (a m k : nat) :
  (0 < m)%nat -> (k < 3)%nat ->
  Nat.modulo (a * 3 + k) (m * 3) = (Nat.modulo a m * 3 + k)%nat.
Proof.
  intros Hm Hk. symmetry. apply (Nat.mod_unique _ _ (a / m)).
  - pose proof (Nat.mod_upper_bound a m ltac:(lia)). lia.
  - pose proof (Nat.div_mod_eq a m). nia.
Qed.

Lemma mod_three_channel (n k : nat) :
  (k < 3)%nat -> Nat.modulo (n * 3 + k) 3 = k.
Proof.
  intros Hk. symmetry. apply (Nat.mod_unique _ _ n); lia.
Qed.

Section PreprocessFacts.
Context {Px : Pixels}.

Lemma normalize_channels (self : KITTIDataset) (img : ndarray3) :
  (3 <= dim2 img)%nat ->
  preprocess_img self img
  = match np_resize (normalized img) (height self) (width self)
            (channels self) with
    | inl e => inl e
    | inr resized => inr (permute_2_0_1 resized)
    end.
Proof.
  intros Hc. unfold preprocess_img, normalize_channel. simpl.
  replace (dim2 img <=? 0)%nat with false by (symmetry; apply Nat.leb_gt; lia).
  simpl.
  replace (dim2 img <=? 1)%nat with false by (symmetry; apply Nat.leb_gt; lia).
  simpl.
  replace (dim2 img <=? 2)%nat with false by (symmetry; apply Nat.leb_gt; lia).
  simpl.
  assert (Hbuf :
    imap (fun i x => if (Nat.modulo i (dim2 img) =? 2)%nat
                     then normalize 2 x else x)
      (imap (fun i x => if (Nat.modulo i (dim2 img) =? 1)%nat
                        then normalize 1 x else x)
         (imap (fun i x => if (Nat.modulo i (dim2 img) =? 0)%nat
                           then normalize 0 x else x) (buffer img)))
    = buffer (normalized img)).
  { apply list_eq. intros i. simpl. rewrite !list_lookup_imap.
    destruct (buffer img !! i) as [x|]; [simpl|reflexivity]. f_equal.
    destruct (Nat.modulo i (dim2 img)) as [|[|[|k]]]; reflexivity. }
  rewrite Hbuf. reflexivity.
Qed.

Lemma normalized_lookup (img : ndarray3) (n k : nat) :
  dim2 img = 3%nat -> (k < 3)%nat ->
  buffer (normalized img) !! (n * 3 + k)%nat
  = normalize k <$> buffer img !! (n * 3 + k)%nat.
Proof.
  intros Hc Hk. simpl. rewrite list_lookup_imap, Hc, mod_three_channel by lia.
  replace (k <? 3)%nat with true by (symmetry; apply Nat.ltb_lt; lia).
  reflexivity.
Qed.

Lemma np_resize_ok (a : ndarray3) (d0 d1 d2 : Z) :
  0 <= d0 -> 0 <= d1 -> 0 <= d2 ->
  exists r,
    np_resize a d0 d1 d2 = inr r /\
    dim0 r = Z.to_nat d0 /\ dim1 r = Z.to_nat d1 /\ dim2 r = Z.to_nat d2 /\
    contiguous r /\
    ((0 < length (buffer a))%nat ->
     forall i, (i < size r)%nat ->
       buffer r !! i = buffer a !! Nat.modulo i (length (buffer a))).
Proof.
  intros H0 H1 H2. unfold np_resize.
  replace ((d0 <? 0) || (d1 <? 0) || (d2 <? 0)) with false by lia.
  eexists. split; [reflexivity|]. simpl.
  split; [reflexivity|]. split; [reflexivity|]. split; [reflexivity|].
  assert (Hsize : Z.to_nat (d0 * d1 * d2)
                  = (Z.to_nat d0 * Z.to_nat d1 * Z.to_nat d2)%nat).
  { rewrite !Z2Nat.inj_mul by nia. reflexivity. }
  unfold contiguous, size. simpl. rewrite <- Hsize.
  set (n := Z.to_nat (d0 * d1 * d2)). set (m := length (buffer a)).
  destruct (m =? 0)%nat eqn:Hm; simpl.
  { apply Nat.eqb_eq in Hm. split; [apply length_replicate | lia]. }
  apply Nat.eqb_neq in Hm.
  destruct (n =? 0)%nat eqn:Hn; simpl.
  { apply Nat.eqb_eq in Hn. split; [apply length_replicate | intros; lia]. }
  pose proof (ceil_div_covers n m ltac:(lia)) as Hcover.
  split.
  - rewrite length_take, concat_replicate_length. fold m. lia.
  - intros _ i Hi. rewrite lookup_take_lt by assumption.
    apply concat_replicate_lookup; fold m; lia.
Qed.
End PreprocessFacts.

Section PreprocessTheorems.
Context {Px : Pixels}.

Lemma permute_inner_length (a : ndarray3) (k i : nat) :
  length (map (fun j => nth ((i * dim1 a + j) * dim2 a + k)%nat (buffer a)
                          pixel_zero) (seq 0 (dim1 a))) = dim1 a.
Proof. now rewrite length_map, length_seq. Qed.

Lemma permute_block_length (a : ndarray3) (k : nat) :
  length (flat_map (fun i =>
            map (fun j => nth ((i * dim1 a + j) * dim2 a + k)%nat (buffer a)
                            pixel_zero) (seq 0 (dim1 a)))
            (seq 0 (dim0 a))) = (dim0 a * dim1 a)%nat.
Proof.
  rewrite (@flat_map_constant_length _ _ (dim1 a)), length_seq; [reflexivity|].
  intros i _. apply permute_inner_length.
Qed.

Lemma permute_contiguous (a : ndarray3) : contiguous (permute_2_0_1 a).
Proof.
  unfold contiguous, size. simpl.
  rewrite (@flat_map_constant_length _ _ (dim0 a * dim1 a)), length_seq; [lia|].
  intros k _. apply permute_block_length.
Qed.

(** [t[k, i, j] = a[i, j, k]] *)
Lemma permute_item (a : ndarray3) (k i j : nat) :
  contiguous a -> (k < dim2 a)%nat -> (i < dim0 a)%nat -> (j < dim1 a)%nat ->
  item (permute_2_0_1 a) k i j = item a i j k.
Proof.
  intros Hc Hk Hi Hj. unfold item. simpl.
  replace ((k * dim0 a + i) * dim1 a + j)%nat
    with (k * (dim0 a * dim1 a) + (i * dim1 a + j))%nat by lia.
  rewrite (flat_map_block _ (dim2 a) (dim0 a * dim1 a));
    [| intros k' _; apply permute_block_length | assumption
     | now apply index_bound].
  rewrite (flat_map_block _ (dim0 a) (dim1 a));
    [| intros i' _; apply permute_inner_length | assumption | assumption].
  change (map ?f ?l) with (f <$> l).
  rewrite list_lookup_fmap, lookup_seq_lt by assumption. simpl.
  destruct (lookup_lt_is_Some_2 (buffer a) ((i * dim1 a + j) * dim2 a + k))
    as [v Hv].
  { rewrite Hc. unfold size. apply index_bound; [|assumption].
    now apply index_bound. }
  rewrite Hv. f_equal. now apply nth_lookup_Some.
Qed.

(** X15: on an image of at least three channels and with non-negative
    target dimensions, [preprocess_img] returns a tensor of shape
    (channels, height, width), whatever the size of the image, so that two
    of them always fill the (2 * channels, height, width) pair. *)
Theorem preprocess_img_shape (self : KITTIDataset) (img : ndarray3) :
  (3 <= dim2 img)%nat ->
  0 <= height self -> 0 <= width self -> 0 <= channels self ->
  exists t,
    preprocess_img self img = inr t /\
    dim0 t = Z.to_nat (channels self) /\
    dim1 t = Z.to_nat (height self) /\
    dim2 t = Z.to_nat (width self) /\
    contiguous t.
Proof.
  intros Hc Hh Hw Hch. rewrite normalize_channels by assumption.
  destruct (np_resize_ok (normalized img) (height self) (width self)
              (channels self) Hh Hw Hch)
    as (r & -> & H0 & H1 & H2 & _).
  eexists. split; [reflexivity|]. simpl.
  repeat split; auto. apply permute_contiguous.
Qed.

(** X16: [preprocess_img] fails exactly when the image has fewer than three
    channels, with the index error of the channel assignment, or, the
    channels being there, when a target dimension is negative, with the
    error of [np.resize]. *)
Theorem preprocess_img_failures (self : KITTIDataset) (img : ndarray3) :
  ((dim2 img < 3)%nat <-> preprocess_img self img = inl AxisIndexError) /\
  ((3 <= dim2 img)%nat /\
   (height self < 0 \/ width self < 0 \/ channels self < 0) <->
   preprocess_img self img = inl NegativeDimension).
Proof.
  destruct (decide (3 <= dim2 img)%nat) as [Hc | Hc].
  - rewrite normalize_channels by assumption. unfold np_resize.
    destruct ((height self <? 0) || (width self <? 0) || (channels self <? 0))
      eqn:Hneg.
    + split; split.
      * lia.
      * discriminate.
      * reflexivity.
      * intros _. split; [assumption | lia].
    + split; split.
      * lia.
      * discriminate.
      * lia.
      * discriminate.
  - assert (Hfail : preprocess_img self img = inl AxisIndexError).
    { unfold preprocess_img, normalize_channel.
      destruct (dim2 img) as [|[|[|c]]]; try reflexivity. lia. }
    rewrite Hfail. split; split.
    + reflexivity.
    + lia.
    + lia.
    + discriminate.
Qed.
End PreprocessTheorems.

Section PreprocessPixels.
Context {Px : Pixels}.
Variables (self : KITTIDataset) (img : ndarray3).

Hypothesis img_contiguous : contiguous img.
Hypothesis img_rgb : dim2 img = 3%nat.
Hypothesis img_not_empty : (0 < dim0 img * dim1 img)%nat.
Hypothesis self_channels : channels self = 3.
Hypothesis self_height : 0 <= height self.
Hypothesis self_width : 0 <= width self.

(** The value at [t[k, y, x]], as a position in the buffer of the image. *)
Lemma preprocess_img_lookup (k y x : nat) :
  (k < 3)%nat ->
  (y < Z.to_nat (height self))%nat -> (x < Z.to_nat (width self))%nat ->
  exists t,
    preprocess_img self img = inr t /\
    item t k y x
    = normalize k
      <$> buffer img
          !! (Nat.modulo (y * Z.to_nat (width self) + x) (dim0 img * dim1 img)
              * 3 + k)%nat.
Proof.
  intros Hk Hy Hx. rewrite normalize_channels by lia.
  destruct (np_resize_ok (normalized img) (height self) (width self)
              (channels self) self_height self_width ltac:(lia))
    as (r & -> & H0 & H1 & H2 & Hcont & Hcycle).
  rewrite self_channels in H2. change (Z.to_nat 3) with 3%nat in H2.
  eexists. split; [reflexivity|].
  rewrite permute_item by (assumption || lia).
  unfold item. rewrite H1, H2.
  assert (Hlen : length (buffer (normalized img))
                 = (dim0 img * dim1 img * 3)%nat).
  { simpl. rewrite length_imap, img_contiguous. unfold size.
    now rewrite img_rgb. }
  rewrite Hcycle.
  - rewrite Hlen, mod_times_three by lia.
    now apply normalized_lookup.
  - lia.
  - unfold size. rewrite H0, H1, H2.
    apply index_bound; [|assumption]. now apply index_bound.
Qed.

(** X17: [preprocess_img] does not rescale. On a non-empty three-channel
    image, for any target height and width, the value of the tensor at
    channel [k], row [y], column [x] is the normalized channel [k] of the
    pixel number [(y * width + x) mod (h * w)] of the image in raster
    order, [h] and [w] being the image's own height and width: the pixels
    are laid out row after row into the new shape and repeated from the
    start when the image is too small. *)
Theorem preprocess_img_pixel (k y x : nat) :
  (k < 3)%nat ->
  (y < Z.to_nat (height self))%nat -> (x < Z.to_nat (width self))%nat ->
  exists t,
    preprocess_img self img = inr t /\
    let n := Nat.modulo (y * Z.to_nat (width self) + x)
               (dim0 img * dim1 img) in
    item t k y x
    = normalize k <$> item img (n / dim1 img) (Nat.modulo n (dim1 img)) k.
Proof.
  intros Hk Hy Hx.
  destruct (preprocess_img_lookup k y x Hk Hy Hx) as (t & Ht & Hitem).
  exists t. split; [assumption|]. cbv zeta. rewrite Hitem.
  unfold item. rewrite img_rgb. do 2 f_equal.
  set (n := Nat.modulo (y * Z.to_nat (width self) + x) (dim0 img * dim1 img)).
  pose proof (Nat.div_mod_eq n (dim1 img)). lia.
Qed.

(** X18: when the image has the target width and at least the target
    height, [preprocess_img] returns its first [height] rows, channel by
    channel: [t[k, y, x]] is the normalized [img[y, x, k]]. *)
Theorem preprocess_img_crop (k y x : nat) :
  dim1 img = Z.to_nat (width self) ->
  (Z.to_nat (height self) <= dim0 img)%nat ->
  (k < 3)%nat ->
  (y < Z.to_nat (height self))%nat -> (x < Z.to_nat (width self))%nat ->
  exists t,
    preprocess_img self img = inr t /\
    item t k y x = normalize k <$> item img y x k.
Proof.
  intros Hw Hh Hk Hy Hx.
  destruct (preprocess_img_lookup k y x Hk Hy Hx) as (t & Ht & Hitem).
  exists t. split; [assumption|]. rewrite Hitem.
  unfold item. rewrite img_rgb, Hw. do 2 f_equal.
  rewrite Nat.mod_small; [reflexivity|].
  apply index_bound; [lia | assumption].
Qed.
End PreprocessPixels.

Lemma preprocess_img_shape_witness :
  (3 <= dim2 small_image)%nat /\
  0 <= height (small_target 2 3) /\ 0 <= width (small_target 2 3) /\
  0 <= channels (small_target 2 3) /\
  exists t,
    preprocess_img (small_target 2 3) small_image = inr t /\
    dim0 t = 3%nat /\ dim1 t = 2%nat /\ dim2 t = 3%nat /\ contiguous t.
Proof.
  split; [simpl; lia|]. split; [simpl; lia|]. split; [simpl; lia|].
  split; [simpl; lia|].
  apply (preprocess_img_shape (Px := unit_pixels) (small_target 2 3)
           small_image); simpl; lia.
Defined.

Lemma preprocess_img_failures_witness :
  (3 <= dim2 small_image)%nat /\ height (small_target (-1) 3) < 0 /\
  preprocess_img (small_target (-1) 3) small_image = inl NegativeDimension.
Proof.
  split; [simpl; lia|]. split; [simpl; lia|].
  apply (preprocess_img_failures (Px := unit_pixels) (small_target (-1) 3)
           small_image).
  split; [simpl; lia | left; simpl; lia].
Defined.

Lemma preprocess_img_pixel_witness :
  contiguous small_image /\ dim2 small_image = 3%nat /\
  (0 < dim0 small_image * dim1 small_image)%nat /\
  channels (small_target 2 3) = 3 /\
  exists t,
    preprocess_img (small_target 2 3) small_image = inr t /\
    item t 0 1 0 = Some 9.
Proof.
  split; [reflexivity|]. split; [reflexivity|]. split; [simpl; lia|].
  split; [reflexivity|].
  destruct (preprocess_img_pixel (Px := unit_pixels) (small_target 2 3)
              small_image eq_refl eq_refl ltac:(simpl; lia) eq_refl
              ltac:(simpl; lia) ltac:(simpl; lia) 0 1 0
              ltac:(lia) ltac:(simpl; lia) ltac:(simpl; lia))
    as (t & Ht & Hitem).
  exists t. split; [exact Ht|]. rewrite Hitem. reflexivity.
Defined.

Lemma preprocess_img_crop_witness :
  dim1 small_image = Z.to_nat (width (small_target 1 2)) /\
  (Z.to_nat (height (small_target 1 2)) <= dim0 small_image)%nat /\
  exists t,
    preprocess_img (small_target 1 2) small_image = inr t /\
    item t 2 0 1 = Some 5 /\ item small_image 0 1 2 = Some 5.
Proof.
  split; [reflexivity|]. split; [simpl; lia|].
  destruct (preprocess_img_crop (Px := unit_pixels) (small_target 1 2)
              small_image eq_refl eq_refl ltac:(simpl; lia) eq_refl
              ltac:(simpl; lia) ltac:(simpl; lia) 2 0 1
              eq_refl ltac:(simpl; lia)
              ltac:(lia) ltac:(simpl; lia) ltac:(simpl; lia))
    as (t & Ht & Hitem).
  exists t. split; [exact Ht|]. rewrite Hitem. split; reflexivity.
Defined.
